(** * Uniswap-tracker: range bounds, tick aggregation, fee estimates

    A shallow embedding of the dashboard component of
    [frontend/src/utils.js] (the range-and-cursor chart plugin, the bound
    inputs, the reset button, the liquidity aggregate, the fee summary and
    the return estimate) and of the dragger plugin of
    [frontend/src/App.jsx].

    JavaScript numbers are IEEE-754 binary64 values, and so are Rocq's
    primitive floats: [+], [*], [/] and the comparisons below are the
    operations the JavaScript engine performs, rounding included.  [null]
    and [undefined] are [None], for which [Number.isFinite] is false.
    The texts the estimate shows are strings, formatted as
    [Intl.NumberFormat] formats them.

    The definitions come first: numbers, the dashboard, the earlier
    component, and the data of an example session.  The properties
    follow, by component. *)

From Stdlib Require Import Floats ZArith Bool List Lia Permutation.
From Stdlib Require Ascii String DecimalString.
From stdpp Require Import base option list.
Import ListNotations.

Set Warnings "-inexact-float".
Local Open Scope float_scope.

(** ** JavaScript numbers *)

Module JS.

(** [Number.isFinite(x)] for a number [x]. *)
Definition isFinite (x : float) : bool := PrimFloat.is_finite x.

(** [Number(v)] for a number or [null]: [Number(null)] is [0]. *)
Definition toNumber (v : option float) : float :=
  match v with
  | Some x => x
  | None => 0
  end.

(** [Object.is] on numbers: the comparison React uses for state updates
    and for effect dependencies ([NaN] equals itself, [+0] differs from
    [-0]). *)
Definition Object_is (x y : float) : bool := PrimFloat.Leibniz.eqb x y.

(** [Math.max(a, b)]: [NaN] if either argument is, and [+0] is larger
    than [-0]. *)
Definition Math_max (a b : float) : float :=
  if PrimFloat.is_nan a || PrimFloat.is_nan b then PrimFloat.nan
  else if a <? b then b
  else if b <? a then a
  else if PrimFloat.get_sign a then b else a.

(** [Math.min(a, b)]: [NaN] if either argument is, and [-0] is smaller
    than [+0]. *)
Definition Math_min (a b : float) : float :=
  if PrimFloat.is_nan a || PrimFloat.is_nan b then PrimFloat.nan
  else if a <? b then a
  else if b <? a then b
  else if PrimFloat.get_sign a then a else b.

(** [Number.isFinite(s) ? s : null]. *)
Definition finiteOrNull (s : float) : option float :=
  if isFinite s then Some s else None.

(** [Math.abs]. *)
Definition Math_abs (a : float) : float := PrimFloat.abs a.

(** [arr.slice(-n)]: the trailing [n] elements, the whole array when it
    is shorter (and when [n] is [0], since [-0] is [0]). *)
Definition slice_last {A : Type} (n : nat) (arr : list A) : list A :=
  match n with
  | O => arr
  | _ => skipn (length arr - n) arr
  end.

(** The comparison behind [<], [<=] and [===], on the decoded numbers:
    [None] when one of them is [NaN]. *)
Definition cmp (a b : float) : option comparison :=
  SFcompare (Prim2SF a) (Prim2SF b).

End JS.

(** ** The number format of the estimate

    [new Intl.NumberFormat("en-US", { maximumFractionDigits: 0 })]: the
    number is rounded to an integer, a tie away from zero, and written in
    decimal with a comma between groups of three digits, after a minus
    sign when the number is negative or the negative zero. *)

Module Intl.
Import Ascii String.StringSyntax.
Local Open Scope string_scope.

(** The magnitude of a finite number, rounded to an integer. *)
Definition roundHalfExpand (n : float) : N :=
  match Prim2SF n with
  | S754_finite _ m e =>
      match e with
      | Zneg k =>
          let d := N.pow 2 (Npos k) in
          let q := N.div (Npos m) d in
          let r := N.modulo (Npos m) d in
          if N.leb d (2 * r) then N.succ q else q
      | _ => Npos m * N.pow 2 (Z.to_N e)
      end
  | _ => 0%N
  end.

(** Commas between groups of three, on the digits from the least
    significant one. *)
Fixpoint grouped (rs : list ascii) : list ascii :=
  match rs with
  | a :: b :: c :: ((_ :: _) as rest) =>
      a :: b :: c :: ","%char :: grouped rest
  | _ => rs
  end.

(** The decimal digits of an integer, the most significant one first. *)
Definition digits (k : N) : list ascii :=
  String.list_ascii_of_string
    (DecimalString.NilZero.string_of_uint (N.to_uint k)).

(** [format(n)] for a finite [n]. *)
Definition format (n : float) : String.string :=
  let text :=
    String.string_of_list_ascii
      (rev (grouped (rev (digits (roundHalfExpand n))))) in
  if PrimFloat.get_sign n then String.append "-" text else text.

End Intl.

(** ** The dashboard component ([utils.js]) *)

Module Dashboard.
Import JS.

(** [const clamp = (v, lo, hi) => Math.max(lo, Math.min(hi, v))]. *)
Definition clamp (v lo hi : float) : float := Math_max lo (Math_min hi v).

(** *** Liquidity aggregate *)

(** A tick as the loader stores it: three numbers. *)
Record Tick := {
  priceLowerUSD : float;
  priceUpperUSD : float;
  usdValue : float
}.

(** [normalizeRange(a, b)], the pair [{lo, hi}]. *)
Definition normalizeRange (a b : float) : float * float :=
  (Math_min a b, Math_max a b).

(** [tickOverlapsRange(tick, rangeLo, rangeHi)]; the fields are numbers
    already, so [Number(...)] returns them. *)
Definition tickOverlapsRange (tick : Tick) (rangeLo rangeHi : float) : bool :=
  let pl := priceLowerUSD tick in
  let pu := priceUpperUSD tick in
  if negb (isFinite pl) || negb (isFinite pu) then false
  else
    let lo := Math_min pl pu in
    let hi := Math_max pl pu in
    (rangeLo <=? hi) && (lo <=? rangeHi).

(** The loop of [totalLiquidityInRange]: [sum] starts at [0] and grows by
    [t.usdValue] for each overlapping tick, in sequence order. *)
Definition sumInRange (ticksAll : list Tick) (lo hi : float) : float :=
  fold_left
    (fun sum t => if tickOverlapsRange t lo hi then sum + usdValue t else sum)
    ticksAll 0.

(** Two notions to state what the loop computes: the ticks it adds up,
    and the sum of [usdValue] from left to right, starting from [acc]. *)
Definition included (lo hi : float) (ticks : list Tick) : list Tick :=
  List.filter (fun t => tickOverlapsRange t lo hi) ticks.

Definition addValues (acc : float) (ticks : list Tick) : float :=
  fold_left (fun sum t => sum + usdValue t) ticks acc.

(** [totalLiquidityInRange], as a function of what the memo depends on. *)
Definition totalLiquidityInRange
    (ticksAll : list Tick) (lowerValue upperValue : float) : option float :=
  let '(lo, hi) := normalizeRange lowerValue upperValue in
  if negb (isFinite lo) || negb (isFinite hi) then None
  else
    match ticksAll with
    | [] => None
    | _ =>
        let sum := sumInRange ticksAll lo hi in
        finiteOrNull sum
    end.

(** *** Fee summary *)

(** A daily record as the loader stores it; [feesUSD] is a number or
    [null].  The display label is left out. *)
Record DayPoint := {
  day_ts : float;
  day_price : float;
  day_feesUSD : option float
}.

(** An element of the local array [fees]. *)
Record Fee := {
  ts : float;
  feesUSD : float
}.

Record FeesSummary := {
  last1d : option float;
  last7d : option float;
  last30d : option float
}.

(** The local array [fees]: each record mapped, then filtered. *)
Definition feesOf (dailyAll : list DayPoint) : list Fee :=
  List.filter (fun d => isFinite (ts d) && isFinite (feesUSD d))
    (map (fun d => {| ts := day_ts d; feesUSD := toNumber (day_feesUSD d) |})
       dailyAll).

(** A record the loader can store for a day with a fee: a finite
    timestamp and a finite fee. *)
Definition wellFormed (d : DayPoint) : Prop :=
  isFinite (day_ts d) = true
  /\ exists f, day_feesUSD d = Some f /\ isFinite f = true.

(** The [reduce] of [sumLastN]. *)
Definition sumFees (slice : list Fee) : float :=
  fold_left (fun acc x => acc + feesUSD x) slice 0.

(** The closure [sumLastN] over [fees]. *)
Definition sumLastN (fees : list Fee) (n : nat) : option float :=
  let s := sumFees (slice_last n fees) in
  finiteOrNull s.

(** [feesSummary], as a function of [dailyAll]. *)
Definition feesSummary (dailyAll : list DayPoint) : FeesSummary :=
  let fees := feesOf dailyAll in
  match last fees with
  | None => {| last1d := None; last7d := None; last30d := None |}
  | Some l =>
      {| last1d := Some (feesUSD l);
         last7d := sumLastN fees 7;
         last30d := sumLastN fees 30 |}
  end.

(** *** Return estimate *)

Import String.StringSyntax.
Local Open Scope string_scope.

(** What an estimate field shows: a text. *)
Definition Shown : Type := String.string.

(** The dash shown for what is unavailable. *)
Definition Dash : Shown := "—".

(** [fmtInt(n)]. *)
Definition fmtInt (n : float) : Shown :=
  if isFinite n then Intl.format n else Dash.

(** [fmtUSD0(n)]. *)
Definition fmtUSD0 (n : float) : Shown :=
  if isFinite n then String.append "$" (fmtInt n) else Dash.

(** The three estimate fields and the [calcRequested] flag. *)
Record Estimate := {
  calcRequested : bool;
  estFeesWeekly : Shown;
  estFeesDaily : Shown;
  estApr : Shown
}.

(** The preconditions of a defined estimate: the deposit finite and
    [> 0], the liquidity in range finite and [> 0], the fees of the last
    seven days finite and [>= 0]. *)
Definition estimable (deposit : float) (L fees7 : option float) : bool :=
  isFinite deposit && (0 <? deposit)
  && match L with
     | Some l => isFinite l && (0 <? l)
     | None => false
     end
  && match fees7 with
     | Some f7 => isFinite f7 && (0 <=? f7)
     | None => false
     end.

(** [handleCalculate], as a function of the parsed deposit text
    ([Number(String(depositText).replaceAll(",", ""))]), of
    [totalLiquidityInRange] and of [feesSummary.last7d]; the result is the
    state the setters leave.  A [null] liquidity or fee total fails
    [Number.isFinite] in the second guard. *)
Definition handleCalculate
    (deposit : float) (L fees7 : option float) : Estimate :=
  let unavailable :=
    {| calcRequested := true; estFeesWeekly := Dash;
       estFeesDaily := Dash; estApr := Dash |} in
  if negb (isFinite deposit) || (deposit <=? 0) then unavailable
  else
    match L, fees7 with
    | Some l, Some f7 =>
        if negb (isFinite l) || (l <=? 0) || negb (isFinite f7) || (f7 <? 0)
        then unavailable
        else
          let weeklyEst := (deposit / l) * f7 in
          let dailyEst := weeklyEst / 7 in
          let aprPct := (f7 / l) * 52 * 100 in
          {| calcRequested := true;
             estFeesWeekly := fmtUSD0 weeklyEst;
             estFeesDaily := fmtUSD0 dailyEst;
             estApr := if isFinite aprPct
                       then String.append (fmtInt aprPct) "%"
                       else Dash |}
    | _, _ => unavailable
    end.

Local Close Scope string_scope.

(** *** The chart plugin [rangeAndCursorPlugin]

    The chart object carries the two bound lines in [chart.$lines] and the
    line being dragged in [chart.$dragState.dragging].  The dragged line
    is a reference to a line object: the array is replaced whenever the
    component's bounds change, while the reference keeps the object it
    was given.  Line objects therefore live in a store and are named by
    their index in it. *)

Inductive Label := UpperBound | LowerBound.

(** The two state setters a line can carry as [onDragEnd]. *)
Inductive Setter := setUpperValue | setLowerValue.

(** A line object; the colour is left out. *)
Record Line := {
  label : Label;
  value : float;
  onDragEnd : Setter
}.

Definition Label_eqb (a b : Label) : bool :=
  match a, b with
  | UpperBound, UpperBound | LowerBound, LowerBound => true
  | _, _ => false
  end.

Record Chart := {
  objs : list Line;            (* the line objects created so far *)
  lines : option (list nat);   (* chart.$lines *)
  dragging : option nat;       (* chart.$dragState.dragging *)
  cursorY : option float;      (* chart.$cursorY *)
  cursorVal : option float     (* chart.$cursorVal *)
}.

(** The value scale of the chart, [chart.scales.y]: its visible range and
    its two conversions, which belong to the charting library. *)
Module Scale.
Record t := {
  min : float;
  max : float;
  getValueForPixel : float -> float;
  getPixelForValue : float -> float
}.
End Scale.

Module ChartArea.
Record t := {
  left : float;
  right : float;
  top : float;
  bottom : float
}.
End ChartArea.

Inductive EventType := mousedown | mousemove | mouseup | mouseout.

Module MouseEvent.
Record t := {
  type : EventType;
  x : float;
  y : float
}.
End MouseEvent.

Definition EventType_eqb (a b : EventType) : bool :=
  match a, b with
  | mousedown, mousedown | mousemove, mousemove
  | mouseup, mouseup | mouseout, mouseout => true
  | _, _ => false
  end.

(** A reference is truthy, [null] is not. *)
Definition truthy {A : Type} (r : option A) : bool :=
  match r with
  | Some _ => true
  | None => false
  end.

(** A call of a state setter made by the plugin. *)
Definition Call : Type := Setter * float.

(** [lines.find((l) => l.label === lbl)]: the first line with that label,
    [undefined] when there is none.  (A reference always names an object;
    the outer [None] is the store's answer for an index outside it.) *)
Fixpoint findLabel (objs : list Line) (lbl : Label) (ls : list nat)
  : option (option nat) :=
  match ls with
  | [] => Some None
  | l :: rest =>
      match objs !! l with
      | None => None
      | Some line =>
          if Label_eqb (label line) lbl then Some (Some l)
          else findLabel objs lbl rest
      end
  end.

(** The loop of the [mousedown] block over the lines it is given (the
    reversed array): the first line within six pixels of the pointer. *)
Fixpoint pickLine (yScale : Scale.t) (objs : list Line) (ey : float)
    (ls : list nat) : option (option nat) :=
  match ls with
  | [] => Some None
  | l :: rest =>
      match objs !! l with
      | None => None
      | Some line =>
          let lineY := Scale.getPixelForValue yScale (value line) in
          if Math_abs (ey - lineY) <? 6 then Some (Some l)
          else pickLine yScale objs ey rest
      end
  end.

Definition setValue (v : float) (line : Line) : Line :=
  {| label := label line; value := v; onDragEnd := onDragEnd line |}.

(** The pointer's value clamped to the visible axis: the first lines of
    the [mousemove] block. *)
Definition axisClamped (yScale : Scale.t) (ey : float) : float :=
  let newVal := Scale.getValueForPixel yScale ey in
  let axisMin :=
    if isFinite (Scale.min yScale) then Scale.min yScale else newVal in
  let axisMax :=
    if isFinite (Scale.max yScale) then Scale.max yScale else newVal in
  clamp newVal axisMin axisMax.

(** The [mousemove] block while the line [d] is dragged: the clamped
    pointer value is clamped against the other line of [chart.$lines] and
    stored in the dragged object.  [None] when it throws (the other line
    is [undefined]). *)
Definition dragMove (yScale : Scale.t) (ey : float) (ls : list nat) (d : nat)
    (objs : list Line) : option (list Line) :=
  dl ← objs !! d;
  let newVal := axisClamped yScale ey in
  upper ← findLabel objs UpperBound ls;
  lower ← findLabel objs LowerBound ls;
  match label dl with
  | UpperBound =>
      lo ← lower; lline ← objs !! lo;
      Some (<[d := setValue (Math_max newVal (value lline)) dl]> objs)
  | LowerBound =>
      up ← upper; uline ← objs !! up;
      Some (<[d := setValue (Math_min newVal (value uline)) dl]> objs)
  end.

(** Two notions to state what a drag move does.  The line facing a
    dragged line: the lower line for the upper one and the upper line for
    the lower one. *)
Definition facing (lbl : Label) : Label :=
  match lbl with
  | UpperBound => LowerBound
  | LowerBound => UpperBound
  end.

(** The value a dragged line takes: the clamped pointer value [c], held
    above the lower line or below the upper line. *)
Definition held (lbl : Label) (c other : float) : float :=
  match lbl with
  | UpperBound => Math_max c other
  | LowerBound => Math_min c other
  end.

(** The blocks of [afterEvent], in the order they run.  [inside]: the
    pointer is in the chart area. *)
Definition inside (chartArea : ChartArea.t) (event : MouseEvent.t) : bool :=
  (ChartArea.left chartArea <=? MouseEvent.x event) &&
  (MouseEvent.x event <=? ChartArea.right chartArea) &&
  (ChartArea.top chartArea <=? MouseEvent.y event) &&
  (MouseEvent.y event <=? ChartArea.bottom chartArea).

(** The cursor follows the pointer while nothing is dragged, and is
    cleared when the pointer leaves: [chart.$cursorY] and
    [chart.$cursorVal] after the first two blocks. *)
Definition cursorBlocks (yScale : Scale.t) (chartArea : ChartArea.t)
    (event : MouseEvent.t) (chart : Chart) : option float * option float :=
  let ty := MouseEvent.type event in
  let '(cY, cV) :=
    if negb (truthy (dragging chart)) && EventType_eqb ty mousemove
       && inside chartArea event
    then (Some (MouseEvent.y event),
          Some (Scale.getValueForPixel yScale (MouseEvent.y event)))
    else (cursorY chart, cursorVal chart) in
  if EventType_eqb ty mouseout then (None, None) else (cY, cV).

(** The [mousedown] block: [state.dragging] after it. *)
Definition grabBlock (yScale : Scale.t) (chartArea : ChartArea.t)
    (event : MouseEvent.t) (ls : list nat) (chart : Chart)
  : option (option nat) :=
  if EventType_eqb (MouseEvent.type event) mousedown && inside chartArea event
  then
    picked ← pickLine yScale (objs chart) (MouseEvent.y event) (rev ls);
    Some (if truthy picked then picked else dragging chart)
  else Some (dragging chart).

(** The [mousemove] block: the line objects after it. *)
Definition moveBlock (yScale : Scale.t) (event : MouseEvent.t)
    (ls : list nat) (drag : option nat) (objs : list Line)
  : option (list Line) :=
  match drag with
  | Some d =>
      if EventType_eqb (MouseEvent.type event) mousemove
      then dragMove yScale (MouseEvent.y event) ls d objs
      else Some objs
  | None => Some objs
  end.

(** The [mouseup]/[mouseout] block: [state.dragging] after it and the
    call of [onDragEnd] it makes. *)
Definition releaseBlock (event : MouseEvent.t) (drag : option nat)
    (objs : list Line) : option (option nat * list Call) :=
  let ty := MouseEvent.type event in
  if EventType_eqb ty mouseup || EventType_eqb ty mouseout then
    match drag with
    | Some d => dl ← objs !! d; Some (None, [(onDragEnd dl, value dl)])
    | None => Some (None, [])
    end
  else Some (drag, []).

(** [afterEvent(chart, evt)]: the chart it leaves and the setter calls it
    makes; [None] when it throws.  [yScale] and [chartArea] are
    [chart.scales.y] and [chart.chartArea] at the time of the event. *)
Definition afterEvent
    (yScale : option Scale.t) (chartArea : option ChartArea.t)
    (event : MouseEvent.t) (chart : Chart) : option (Chart * list Call) :=
  match lines chart, yScale, chartArea with
  | Some ls, Some yScale, Some chartArea =>
      let cursor := cursorBlocks yScale chartArea event chart in
      drag ← grabBlock yScale chartArea event ls chart;
      os ← moveBlock yScale event ls drag (objs chart);
      '(drag', calls) ← releaseBlock event drag os;
      Some ({| objs := os; lines := Some ls; dragging := drag';
               cursorY := cursor.1; cursorVal := cursor.2 |}, calls)
  | _, _, _ => Some (chart, [])
  end.

(** *** The component [Test]: bounds, inputs, reset *)

(** An hourly point as the loader stores it; the display label is left
    out. *)
Module HourPoint.
Record t := {
  ts : float;
  price : float
}.
End HourPoint.

(** The part of the component's state the bounds depend on, and the
    chart object behind [chartRef]. *)
Record App := {
  upperValue : float;
  lowerValue : float;
  didInitBoundsRef : bool;
  hourlyAll : list HourPoint.t;
  chart : Chart
}.

(** The effect that sets [chart.$lines]: two new line objects holding the
    current bounds. *)
Definition setLines (upper lower : float) (c : Chart) : Chart :=
  let n := length (objs c) in
  {| objs := objs c ++
       [ {| label := UpperBound; value := upper; onDragEnd := setUpperValue |};
         {| label := LowerBound; value := lower; onDragEnd := setLowerValue |} ];
     lines := Some [n; S n];
     dragging := dragging c;
     cursorY := cursorY c;
     cursorVal := cursorVal c |}.

(** A render after the bounds were set to [upper] and [lower]: the effect
    runs when one of its dependencies [upperValue], [lowerValue] changed,
    which React decides with [Object.is]. *)
Definition setBounds (upper lower : float) (s : App) : App :=
  let same :=
    Object_is (upperValue s) upper && Object_is (lowerValue s) lower in
  {| upperValue := upper;
     lowerValue := lower;
     didInitBoundsRef := didInitBoundsRef s;
     hourlyAll := hourlyAll s;
     chart := if same then chart s else setLines upper lower (chart s) |}.

(** A setter call made from the plugin. *)
Definition applyCall (c : Call) (s : App) : App :=
  match c with
  | (setUpperValue, v) => setBounds v (lowerValue s) s
  | (setLowerValue, v) => setBounds (upperValue s) v s
  end.

(** The component after its first render and effects: the bounds are
    [1000] and [-1000] and the chart has its two lines. *)
Definition initial : App :=
  {| upperValue := 1000;
     lowerValue := -1000;
     didInitBoundsRef := false;
     hourlyAll := [];
     chart := setLines 1000 (-1000)
                {| objs := []; lines := None; dragging := None;
                   cursorY := None; cursorVal := None |} |}.

(** [currentPrice]: the price of the last hourly point, [null] when there
    is none. *)
Definition currentPrice (s : App) : option float :=
  HourPoint.price <$> last (hourlyAll s).

(** [applyUpper(raw)], given [n = Number(String(raw).replaceAll(",", ""))]. *)
Definition applyUpper (n : float) (s : App) : App :=
  if negb (isFinite n) then s
  else setBounds (Math_max n (lowerValue s)) (lowerValue s) s.

(** [applyLower(raw)], given [n] as above. *)
Definition applyLower (n : float) (s : App) : App :=
  if negb (isFinite n) then s
  else setBounds (upperValue s) (Math_min n (upperValue s)) s.

(** [handleReset]; the zoom it also resets belongs to the charting
    library. *)
Definition handleReset (s : App) : App :=
  match currentPrice s with
  | Some p =>
      if negb (isFinite p) then s
      else setBounds (p * 1.05) (p * 0.95) s
  | None => s
  end.

(** The hourly series arrives: [setHourlyAll(mapped)], and the bounds are
    seeded around the last price the first time the series is not
    empty.  The setter calls of one handler land in one render. *)
Definition hourlyLoaded (mapped : list HourPoint.t) (s : App) : App :=
  let s1 :=
    {| upperValue := upperValue s; lowerValue := lowerValue s;
       didInitBoundsRef := didInitBoundsRef s;
       hourlyAll := mapped; chart := chart s |} in
  match last mapped with
  | Some l =>
      if negb (didInitBoundsRef s) then
        let p := HourPoint.price l in
        setBounds (p * 1.05) (p * 0.95)
          {| upperValue := upperValue s1; lowerValue := lowerValue s1;
             didInitBoundsRef := true;
             hourlyAll := hourlyAll s1; chart := chart s1 |}
      else s1
  | None => s1
  end.

(** What can happen to the component. *)
Inductive Event :=
  | ChartEvent (yScale : option Scale.t) (chartArea : option ChartArea.t)
               (event : MouseEvent.t)
  | ApplyUpper (n : float)
  | ApplyLower (n : float)
  | HourlyLoaded (mapped : list HourPoint.t)
  | ResetClick.

(** One event: the handler runs, then the render and its effects.  [None]
    when the handler throws. *)
Definition step (s : App) (ev : Event) : option App :=
  match ev with
  | ChartEvent yScale chartArea event =>
      '(c, calls) ← afterEvent yScale chartArea event (chart s);
      let s1 :=
        {| upperValue := upperValue s; lowerValue := lowerValue s;
           didInitBoundsRef := didInitBoundsRef s;
           hourlyAll := hourlyAll s; chart := c |} in
      Some (fold_left (fun a call => applyCall call a) calls s1)
  | ApplyUpper n => Some (applyUpper n s)
  | ApplyLower n => Some (applyLower n s)
  | HourlyLoaded mapped => Some (hourlyLoaded mapped s)
  | ResetClick => Some (handleReset s)
  end.

(** A sequence of events, in order. *)
Fixpoint run (s : App) (evs : list Event) : option App :=
  match evs with
  | [] => Some s
  | ev :: rest => s1 ← step s ev; run s1 rest
  end.

(** *** Consistent states and well-formed gestures

    What holds of the component between and during gestures.  The chart
    has an upper and a lower line, two different objects that carry their
    setters; the bounds are ordered, and so are the values of the two
    lines; while nothing is dragged the lines hold the bounds, and while a
    line is dragged the other line holds its bound. *)
Definition ChartInvariant (upper lower : float) (c : Chart) : Prop :=
  exists lu ll U L,
    lines c = Some [lu; ll] /\ lu <> ll
    /\ objs c !! lu = Some U /\ objs c !! ll = Some L
    /\ label U = UpperBound /\ label L = LowerBound
    /\ onDragEnd U = setUpperValue /\ onDragEnd L = setLowerValue
    /\ (lower <=? upper) = true
    /\ (value L <=? value U) = true
    /\ match dragging c with
       | None => value U = upper /\ value L = lower
       | Some d =>
           (d = lu /\ value L = lower) \/ (d = ll /\ value U = upper)
       end.

Definition Invariant (s : App) : Prop :=
  ChartInvariant (upperValue s) (lowerValue s) (chart s).

(** A price around which the seeded bounds are ordered: [p * 0.95] is
    not above [p * 1.05]. *)
Definition seedOrdered (p : float) : Prop := (p * 0.95 <=? p * 1.05) = true.

(** An event that keeps to the gesture: a line is grabbed only when none
    is, the scale gives a number for the pointer while a line is dragged,
    and the inputs, the reset and the arrival of the series come while
    nothing is dragged, with a price as above. *)
Definition admissible (s : App) (ev : Event) : Prop :=
  match ev with
  | ChartEvent (Some yScale) (Some _) event =>
      match dragging (chart s), MouseEvent.type event with
      | Some _, mousedown => False
      | Some _, mousemove =>
          PrimFloat.is_nan
            (Scale.getValueForPixel yScale (MouseEvent.y event)) = false
      | _, _ => True
      end
  | ChartEvent _ _ _ => True
  | ApplyUpper _ | ApplyLower _ => dragging (chart s) = None
  | HourlyLoaded mapped =>
      dragging (chart s) = None
      /\ forall l, last mapped = Some l -> seedOrdered (HourPoint.price l)
  | ResetClick =>
      dragging (chart s) = None
      /\ forall p, currentPrice s = Some p -> seedOrdered p
  end.

(** A sequence of events, each admissible in the state it arrives in. *)
Fixpoint admissibleRun (s : App) (evs : list Event) : Prop :=
  match evs with
  | [] => True
  | ev :: rest =>
      admissible s ev
      /\ match step s ev with
         | Some s1 => admissibleRun s1 rest
         | None => True
         end
  end.

End Dashboard.

(** ** The earlier component ([App.jsx]) and its [draggerPlugin] *)

Module LegacyApp.
Import JS.

(** The two annotation lines, by their [options.id]. *)
Inductive AnnId := lowerLine | upperLine.

(** The module-level variables of the plugin and the component's two
    prices.  [globalLowerPrice] and [globalUpperPrice] are assigned from
    [lowerPrice] and [upperPrice] at every render, and so are the
    annotations' [yMin] and [yMax]: the state keeps the prices once. *)
Record State := {
  activeAnnotationElement : option AnnId;
  isDraggingAnnotation : bool;
  lowerPrice : option float;
  upperPrice : option float
}.

(** The value the [mousemove] branch gives the dragged line. *)
Definition dragged (annId : AnnId) (globalLowerPrice globalUpperPrice : option float)
    (newPrice : float) : float :=
  match annId with
  | lowerLine =>
      match globalUpperPrice with
      | Some up => if up <=? newPrice then up - 0.01 else newPrice
      | None => newPrice
      end
  | upperLine =>
      match globalLowerPrice with
      | Some lo => if newPrice <=? lo then lo + 0.01 else newPrice
      | None => newPrice
      end
  end.

(** [draggerPlugin.afterEvent(chart, args)], followed by the render the
    setter call causes. *)
Definition afterEvent (yScale : Dashboard.Scale.t)
    (event : option Dashboard.MouseEvent.t) (s : State) : State :=
  match event with
  | None => s
  | Some event =>
      let ty := Dashboard.MouseEvent.type event in
      if Dashboard.EventType_eqb ty Dashboard.mousedown
         && Dashboard.truthy (activeAnnotationElement s)
      then
        {| activeAnnotationElement := activeAnnotationElement s;
           isDraggingAnnotation := true;
           lowerPrice := lowerPrice s; upperPrice := upperPrice s |}
      else if Dashboard.EventType_eqb ty Dashboard.mouseup
              || Dashboard.EventType_eqb ty Dashboard.mouseout
      then
        {| activeAnnotationElement := activeAnnotationElement s;
           isDraggingAnnotation := false;
           lowerPrice := lowerPrice s; upperPrice := upperPrice s |}
      else
        match activeAnnotationElement s with
        | Some annId =>
            if Dashboard.EventType_eqb ty Dashboard.mousemove
               && isDraggingAnnotation s
            then
              let newPrice :=
                dragged annId (lowerPrice s) (upperPrice s)
                  (Dashboard.Scale.getValueForPixel yScale
                     (Dashboard.MouseEvent.y event)) in
              match annId with
              | lowerLine =>
                  {| activeAnnotationElement := activeAnnotationElement s;
                     isDraggingAnnotation := isDraggingAnnotation s;
                     lowerPrice := Some newPrice;
                     upperPrice := upperPrice s |}
              | upperLine =>
                  {| activeAnnotationElement := activeAnnotationElement s;
                     isDraggingAnnotation := isDraggingAnnotation s;
                     lowerPrice := lowerPrice s;
                     upperPrice := Some newPrice |}
              end
            else s
        | None => s
        end
  end.

End LegacyApp.

(** ** The loaders of the dashboard ([utils.js])

    A field of a record of the fetched JSON is absent, [null], or a value
    from which [Number(...)] reads a number ([NaN] for what is not
    numeric). *)

Module Loader.
Import JS Dashboard.

Inductive JSField :=
  | Undefined
  | Null
  | Val (n : float).

(** [Number(v)]. *)
Definition Number (v : JSField) : float :=
  match v with
  | Undefined => PrimFloat.nan
  | Null => 0
  | Val n => n
  end.

(** [a ?? b]. *)
Definition nullish (a b : JSField) : JSField :=
  match a with
  | Undefined | Null => b
  | Val _ => a
  end.

(** A record of [hourly.json] or [daily.json], by the fields the loaders
    read. *)
Record RawPoint := {
  timestamp : JSField;
  periodStartUnix : JSField;
  dayStartUnix : JSField;
  token0Price : JSField;
  price : JSField;
  token1Price : JSField;
  feesUSD : JSField
}.

(** [extractTs(d)]. *)
Definition extractTs (d : RawPoint) : float :=
  let ts :=
    Number (nullish (nullish (timestamp d) (periodStartUnix d))
              (dayStartUnix d)) in
  if isFinite ts then ts else PrimFloat.nan.

(** [extractPrice(d)]; [p1 !== 0] is false for both zeros. *)
Definition extractPrice (d : RawPoint) : float :=
  let p0 := Number (token0Price d) in
  if isFinite p0 then p0
  else
    let p := Number (price d) in
    if isFinite p then p
    else
      let p1 := Number (token1Price d) in
      if isFinite p1 && negb (p1 =? 0) then 1 / p1
      else PrimFloat.nan.

(** The [map] and [filter(Boolean)] of the hourly loader, over the array
    [sorted] the engine's sort returns. *)
Definition mapHourly (sorted : list RawPoint) : list HourPoint.t :=
  omap
    (fun d =>
       let ts := extractTs d in
       let price := extractPrice d in
       if negb (isFinite ts) || negb (isFinite price) then None
       else Some {| HourPoint.ts := ts; HourPoint.price := price |})
    sorted.

(** The [map] and [filter(Boolean)] of the daily loader. *)
Definition mapDaily (sorted : list RawPoint) : list DayPoint :=
  omap
    (fun d =>
       let ts := extractTs d in
       let price := extractPrice d in
       let feesUSD := Number (feesUSD d) in
       if negb (isFinite ts) || negb (isFinite price) then None
       else Some {| day_ts := ts; day_price := price;
                    day_feesUSD := finiteOrNull feesUSD |})
    sorted.

(** A record of [ticks.json]. *)
Record RawTick := {
  raw_priceLowerUSD : JSField;
  raw_priceUpperUSD : JSField;
  raw_usdValue : JSField
}.

(** The [map] and [filter] of the tick loader. *)
Definition mapTicks (arr : list RawTick) : list Tick :=
  List.filter
    (fun t => isFinite (priceLowerUSD t) && isFinite (priceUpperUSD t)
              && isFinite (usdValue t))
    (map (fun t => {| priceLowerUSD := Number (raw_priceLowerUSD t);
                      priceUpperUSD := Number (raw_priceUpperUSD t);
                      usdValue := Number (raw_usdValue t) |})
       arr).

(** The hourly loader once the array is fetched: an empty array throws,
    which leaves the bounds and the series as they are (the message it
    sets is not part of [App]); otherwise the mapped series arrives. *)
Definition hourlyFetched (sorted : list RawPoint) (s : App) : App :=
  match sorted with
  | [] => s
  | _ => hourlyLoaded (mapHourly sorted) s
  end.

End Loader.

(** ** The value axis of the dashboard ([utils.js]) *)

Module Axis.
Import JS Dashboard.

(** The range [{ min, max }] handed to the chart options; [undefined] is
    [None]. *)
Module YRange.
Record t := {
  min : option float;
  max : option float
}.
End YRange.

(** One turn of the loop of [computeYRange] on [lo] and [hi]. *)
Definition scan (acc : float * float) (v : float) : float * float :=
  let '(lo, hi) := acc in
  if negb (isFinite v) then (lo, hi)
  else (if v <? lo then v else lo, if hi <? v then v else hi).

(** The loop of [computeYRange]: [lo] and [hi] after it. *)
Definition finiteExtent (values : list float) : float * float :=
  fold_left scan values (PrimFloat.infinity, PrimFloat.neg_infinity).

(** The padding [computeYRange] puts around the extent. *)
Definition padding (lo hi padFrac : float) : float :=
  if hi =? lo then Math_max 1 (Math_abs hi * 0.01)
  else
    let span := hi - lo in
    span * padFrac.

(** [computeYRange(values, padFrac)] for an array of numbers. *)
Definition computeYRange (values : list float) (padFrac : float) : YRange.t :=
  let undefined := {| YRange.min := None; YRange.max := None |} in
  match values with
  | [] => undefined
  | _ =>
      let '(lo, hi) := finiteExtent values in
      if negb (isFinite lo) || negb (isFinite hi) then undefined
      else
        let pad := padding lo hi padFrac in
        {| YRange.min := Some (lo - pad); YRange.max := Some (hi + pad) |}
  end.

(** The array [combined] of the memo [yRange]: the range of the data and
    the two bounds, the finite ones. *)
Definition combined (dataRange : YRange.t) (lowerValue upperValue : float)
  : list float :=
  omap (fun v => v ≫= finiteOrNull)
    [ YRange.min dataRange; YRange.max dataRange;
      finiteOrNull lowerValue; finiteOrNull upperValue ].

(** The memo [yRange], as a function of the prices of the active series
    ([activeSeries.map((p) => p.price)]) and of the bounds. *)
Definition yRange (prices : list float) (lowerValue upperValue : float)
  : YRange.t :=
  let dataRange := computeYRange prices 0.06 in
  computeYRange (combined dataRange lowerValue upperValue) 0.04.

(** What the loop of [computeYRange] has found after the values [seen]:
    nothing finite, and [lo] and [hi] are still the infinities; or [lo]
    and [hi] are finite values among [seen] that enclose every finite
    one. *)
Definition extentOf (seen : list float) (lo hi : float) : Prop :=
  (Forall (fun v => isFinite v = false) seen
   /\ lo = infinity /\ hi = neg_infinity)
  \/ (isFinite lo = true /\ isFinite hi = true
      /\ In lo seen /\ In hi seen
      /\ forall v, In v seen -> isFinite v = true ->
                   (lo <=? v) = true /\ (v <=? hi) = true).

End Axis.

(** ** The time frames of the dashboard ([utils.js]) *)

Module Timeframes.
Import JS.
Import String.StringSyntax.
Local Open Scope string_scope.

Inductive Source := hourly | daily.

Record Timeframe := {
  id : String.string;
  source : Source;
  count : nat
}.

(** [TIMEFRAMES]; the button labels are left out. *)
Definition TIMEFRAMES : list Timeframe :=
  [ {| id := "24h"; source := hourly; count := 24 |};
    {| id := "7d"; source := hourly; count := 7 * 24 |};
    {| id := "30d"; source := daily; count := 30 |};
    {| id := "6m"; source := daily; count := 182 |};
    {| id := "1y"; source := daily; count := 365 |} ].

(** The memo [tf]: [TIMEFRAMES.find((t) => t.id === view) ?? TIMEFRAMES[1]]. *)
Definition tf (view : String.string) : Timeframe :=
  match List.find (fun t => String.eqb (id t) view) TIMEFRAMES with
  | Some t => t
  | None => {| id := "7d"; source := hourly; count := 7 * 24 |}
  end.

(** The memo [activeSeries], for a type [Point] of the points of both
    series. *)
Definition activeSeries {Point : Type} (view : String.string)
    (hourlyAll dailyAll : list Point) : list Point :=
  let t := tf view in
  let source :=
    match source t with
    | hourly => hourlyAll
    | daily => dailyAll
    end in
  match source with
  | [] => []
  | _ => slice_last (count t) source
  end.

End Timeframes.

(** ** Sessions of the two components

    Predicates on the events and states of the dashboard, and the
    callbacks of the annotation plugin that surround the dragger of
    [App.jsx]. *)

Module Gestures.
Import JS Dashboard.

(** An event of the chart that presses no button. *)
Definition hovering (ev : Event) : bool :=
  match ev with
  | ChartEvent _ _ event => negb (EventType_eqb (MouseEvent.type event) mousedown)
  | _ => false
  end.

(** [chart.$cursorY] and [chart.$cursorVal] are both set or both [null]:
    what [afterDatasetsDraw] tests before it draws the cursor. *)
Definition cursorPaired (c : Chart) : Prop :=
  truthy (cursorY c) = truthy (cursorVal c).

End Gestures.

Module LegacySession.
Import JS Dashboard LegacyApp.

(** What reaches the module-level variables of [App.jsx]: the [enter] and
    [leave] callbacks of the annotation plugin and the events of the
    dragger. *)
Inductive Callback :=
  | Enter (element : AnnId)
  | Leave
  | PluginEvent (yScale : Scale.t) (event : option MouseEvent.t).

(** [enter(ctx)]: [activeAnnotationElement = ctx.element]. *)
Definition enter (element : AnnId) (s : State) : State :=
  {| activeAnnotationElement := Some element;
     isDraggingAnnotation := isDraggingAnnotation s;
     lowerPrice := lowerPrice s; upperPrice := upperPrice s |}.

(** [leave()]. *)
Definition leave (s : State) : State :=
  {| activeAnnotationElement := None;
     isDraggingAnnotation := false;
     lowerPrice := lowerPrice s; upperPrice := upperPrice s |}.

(** One callback, and the render that follows it. *)
Definition dispatch (s : State) (ev : Callback) : State :=
  match ev with
  | Enter element => enter element s
  | Leave => leave s
  | PluginEvent yScale event => LegacyApp.afterEvent yScale event s
  end.

(** A sequence of callbacks, in order. *)
Definition dispatchAll (s : State) (evs : list Callback) : State :=
  fold_left dispatch evs s.

(** The event is a [mousedown] of the dragger. *)
Definition pressed (ev : Callback) : bool :=
  match ev with
  | PluginEvent _ (Some event) => EventType_eqb (MouseEvent.type event) mousedown
  | _ => false
  end.

End LegacySession.

(** ** A session

    Example data: the axis the component computes for its initial bounds
    (the range [-1000, 1000] padded by 4%), drawn linearly on a chart area
    540 pixels high, and the axis for bounds seeded around a price of
    3000. *)

Module Scenario.
Import Dashboard.

Definition yScale : Scale.t :=
  {| Scale.min := -1080;
     Scale.max := 1080;
     Scale.getValueForPixel := fun px => 1080 - px * 4;
     Scale.getPixelForValue := fun v => (1080 - v) / 4 |}.

Definition yScaleSeeded : Scale.t :=
  {| Scale.min := 2838;
     Scale.max := 3162;
     Scale.getValueForPixel := fun px => 3162 - px * 0.6;
     Scale.getPixelForValue := fun v => (3162 - v) / 0.6 |}.

Definition chartArea : ChartArea.t :=
  {| ChartArea.left := 0; ChartArea.right := 800;
     ChartArea.top := 0; ChartArea.bottom := 540 |}.

Definition mouse (ty : EventType) (px py : float) : Event :=
  ChartEvent (Some yScale) (Some chartArea)
    {| MouseEvent.type := ty; MouseEvent.x := px; MouseEvent.y := py |}.

(** The hourly series, with a last price of 3000. *)
Definition hourly : list HourPoint.t :=
  [ {| HourPoint.ts := 1700000000; HourPoint.price := 2990 |};
    {| HourPoint.ts := 1700003600; HourPoint.price := 3000 |} ].

(** The upper line, drawn at pixel 20, is grabbed and dragged down to
    pixel 145, the value 500, before the hourly series has arrived. *)
Definition grabAndDrag : list Event :=
  [ mouse mousedown 400 20; mouse mousemove 400 145 ].

(** The series arrives while the button is still down, and the button is
    released without another move. *)
Definition releaseAfterLoad : list Event :=
  grabAndDrag ++
  [ HourlyLoaded hourly;
    ChartEvent (Some yScaleSeeded) (Some chartArea)
      {| MouseEvent.type := mouseup;
         MouseEvent.x := 400; MouseEvent.y := 145 |} ].

End Scenario.

(** * Properties *)

(** ** The order of binary64 numbers

    The comparisons of primitive floats are specified by [SFcompare] on
    their decoded form; the facts about [<], [<=] and [===] that the
    clamps rely on follow from it. *)

Module FloatOrder.
Import JS.

Lemma ltb_cmp a b :
  (a <? b) = match cmp a b with Some Lt => true | _ => false end.
Proof. rewrite FloatAxioms.ltb_spec. reflexivity. Qed.

Lemma leb_cmp a b :
  (a <=? b) = match cmp a b with Some (Lt | Eq) => true | _ => false end.
Proof. rewrite FloatAxioms.leb_spec. reflexivity. Qed.

Lemma eqb_cmp a b :
  (a =? b) = match cmp a b with Some Eq => true | _ => false end.
Proof. rewrite FloatAxioms.eqb_spec. reflexivity. Qed.

Lemma SFcompare_self x :
  SFcompare x x = match x with S754_nan => None | _ => Some Eq end.
Proof.
  destruct x as [s | s | | s m e]; simpl; try reflexivity.
  - destruct s; reflexivity.
  - rewrite Z.compare_refl.
    change (Pos.compare_cont Eq m m) with (Pos.compare m m).
    rewrite Pos.compare_refl. destruct s; reflexivity.
Qed.

Lemma SFcompare_antisym x y :
  SFcompare y x = option_map CompOpp (SFcompare x y).
Proof.
  destruct x as [sx | sx | | sx mx ex], y as [sy | sy | | sy my ey];
    simpl; try reflexivity;
    try (destruct sx; reflexivity); try (destruct sy; reflexivity);
    try (destruct sx, sy; reflexivity).
  change (Pos.compare_cont Eq my mx) with (Pos.compare my mx).
  change (Pos.compare_cont Eq mx my) with (Pos.compare mx my).
  rewrite (Z.compare_antisym ex ey), (Pos.compare_antisym mx my).
  destruct sx, sy; simpl; try reflexivity;
    destruct (Z.compare ex ey); simpl; try reflexivity;
    destruct (Pos.compare mx my); reflexivity.
Qed.

Lemma SFcompare_None x y :
  SFcompare x y = None <-> x = S754_nan \/ y = S754_nan.
Proof.
  destruct x as [sx | sx | | sx mx ex], y as [sy | sy | | sy my ey];
    simpl; split; intros H; try discriminate; auto;
    try (destruct H; discriminate); try (destruct sx; discriminate).
Qed.

(** [a] is [NaN] exactly when its decoded form is. *)
Lemma is_nan_spec a : PrimFloat.is_nan a = true <-> Prim2SF a = S754_nan.
Proof.
  unfold PrimFloat.is_nan. rewrite eqb_cmp. unfold cmp.
  rewrite SFcompare_self.
  destruct (Prim2SF a); simpl; split; intros H; congruence.
Qed.

Lemma is_nan_false a : PrimFloat.is_nan a = false <-> Prim2SF a <> S754_nan.
Proof.
  rewrite <- is_nan_spec. destruct (PrimFloat.is_nan a); split; congruence.
Qed.

Lemma cmp_self a :
  cmp a a = if PrimFloat.is_nan a then None else Some Eq.
Proof.
  unfold cmp. rewrite SFcompare_self.
  destruct (PrimFloat.is_nan a) eqn:E.
  - apply is_nan_spec in E. rewrite E. reflexivity.
  - apply is_nan_false in E. destruct (Prim2SF a); congruence.
Qed.

Lemma cmp_antisym a b : cmp b a = option_map CompOpp (cmp a b).
Proof. apply SFcompare_antisym. Qed.

Lemma cmp_None a b :
  cmp a b = None <-> PrimFloat.is_nan a = true \/ PrimFloat.is_nan b = true.
Proof.
  unfold cmp. split.
  - intros H. apply SFcompare_None in H.
    destruct H as [H | H]; apply is_nan_spec in H; auto.
  - intros H. apply SFcompare_None.
    destruct H as [H | H]; apply is_nan_spec in H; auto.
Qed.

Lemma cmp_Some a b :
  PrimFloat.is_nan a = false -> PrimFloat.is_nan b = false ->
  exists c, cmp a b = Some c.
Proof.
  intros Ha Hb. destruct (cmp a b) as [c |] eqn:E; [eauto |].
  apply cmp_None in E. destruct E; congruence.
Qed.

Lemma cmp_Some_not_nan a b c :
  cmp a b = Some c ->
  PrimFloat.is_nan a = false /\ PrimFloat.is_nan b = false.
Proof.
  intros E.
  destruct (PrimFloat.is_nan a) eqn:Ha, (PrimFloat.is_nan b) eqn:Hb; auto;
    assert (N : cmp a b = None) by (apply cmp_None; auto); congruence.
Qed.

Lemma ltb_not_nan a b :
  (a <? b) = true -> PrimFloat.is_nan a = false /\ PrimFloat.is_nan b = false.
Proof.
  rewrite ltb_cmp. destruct (cmp a b) as [c |] eqn:E; [| discriminate].
  intros _. eapply cmp_Some_not_nan; eauto.
Qed.

Lemma leb_not_nan a b :
  (a <=? b) = true -> PrimFloat.is_nan a = false /\ PrimFloat.is_nan b = false.
Proof.
  rewrite leb_cmp. destruct (cmp a b) as [c |] eqn:E; [| discriminate].
  intros _. eapply cmp_Some_not_nan; eauto.
Qed.

Lemma leb_refl a : PrimFloat.is_nan a = false -> (a <=? a) = true.
Proof. intros H. rewrite leb_cmp, cmp_self, H. reflexivity. Qed.

Lemma eqb_refl a : PrimFloat.is_nan a = false -> (a =? a) = true.
Proof. intros H. rewrite eqb_cmp, cmp_self, H. reflexivity. Qed.

Lemma ltb_leb a b : (a <? b) = true -> (a <=? b) = true.
Proof. rewrite ltb_cmp, leb_cmp. destruct (cmp a b) as [[ | | ] |]; auto. Qed.

(** The order is total on numbers other than [NaN]. *)
Lemma ltb_false_leb a b :
  PrimFloat.is_nan a = false -> PrimFloat.is_nan b = false ->
  (a <? b) = false -> (b <=? a) = true.
Proof.
  intros Ha Hb. rewrite ltb_cmp, leb_cmp, (cmp_antisym a b).
  destruct (cmp_Some a b Ha Hb) as [c ->]. destruct c; simpl; congruence.
Qed.

Lemma leb_false_ltb a b :
  PrimFloat.is_nan a = false -> PrimFloat.is_nan b = false ->
  (a <=? b) = false -> (b <? a) = true.
Proof.
  intros Ha Hb. rewrite ltb_cmp, leb_cmp, (cmp_antisym a b).
  destruct (cmp_Some a b Ha Hb) as [c ->]. destruct c; simpl; congruence.
Qed.

Lemma leb_ltb_false a b : (a <=? b) = true -> (b <? a) = false.
Proof.
  rewrite ltb_cmp, leb_cmp, (cmp_antisym a b).
  destruct (cmp a b) as [[ | | ] |]; simpl; congruence.
Qed.

Lemma ltb_leb_false a b : (a <? b) = true -> (b <=? a) = false.
Proof.
  rewrite ltb_cmp, leb_cmp, (cmp_antisym a b).
  destruct (cmp a b) as [[ | | ] |]; simpl; congruence.
Qed.

Lemma leb_ltb_eqb a b :
  (a <=? b) = true -> (a <? b) = false -> (a =? b) = true.
Proof.
  rewrite ltb_cmp, leb_cmp, eqb_cmp.
  destruct (cmp a b) as [[ | | ] |]; simpl; congruence.
Qed.

Lemma eqb_sym a b : (a =? b) = (b =? a).
Proof.
  rewrite !eqb_cmp, (cmp_antisym a b).
  destruct (cmp a b) as [[ | | ] |]; reflexivity.
Qed.

Lemma eqb_leb a b : (a =? b) = true -> (a <=? b) = true.
Proof.
  rewrite leb_cmp, eqb_cmp. destruct (cmp a b) as [[ | | ] |]; auto.
Qed.

Lemma SFcompare_Eq_congr x y z :
  SFcompare x y = Some Eq -> SFcompare x z = SFcompare y z.
Proof.
  destruct x as [sx | sx | | sx mx ex], y as [sy | sy | | sy my ey];
    simpl; try discriminate;
    try (destruct sx; discriminate); try (destruct sy; discriminate).
  - intros _. destruct z as [sz | sz | | sz mz ez]; reflexivity.
  - destruct sx, sy; try discriminate; intros _; reflexivity.
  - change (Pos.compare_cont Eq mx my) with (Pos.compare mx my).
    destruct sx, sy; try discriminate;
      destruct (Z.compare_spec ex ey); try discriminate;
      destruct (Pos.compare_spec mx my); try discriminate;
      subst; reflexivity.
Qed.

Lemma SFleb_trans x y z :
  SFleb x y = true -> SFleb y z = true -> SFleb x z = true.
Proof.
  unfold SFleb.
  destruct x as [sx | sx | | sx mx ex], y as [sy | sy | | sy my ey],
    z as [sz | sz | | sz mz ez]; simpl; try discriminate; try reflexivity;
    repeat match goal with s : bool |- _ => destruct s end;
    simpl; try discriminate; try reflexivity.
  all: change (Pos.compare_cont Eq) with Pos.compare.
  all: destruct (Z.compare_spec ex ey); try discriminate;
       destruct (Z.compare_spec ey ez); try discriminate;
       destruct (Z.compare_spec ex ez); try reflexivity; try lia;
       subst;
       destruct (Pos.compare_spec mx my); try discriminate;
       destruct (Pos.compare_spec my mz); try discriminate;
       destruct (Pos.compare_spec mx mz);
       try reflexivity; simpl; try discriminate; try lia.
Qed.

Lemma leb_trans a b c :
  (a <=? b) = true -> (b <=? c) = true -> (a <=? c) = true.
Proof. rewrite !FloatAxioms.leb_spec. apply SFleb_trans. Qed.

(** Numbers that are [===] compare alike with every third number. *)
Lemma eqb_cmp_l a b c : (a =? b) = true -> cmp a c = cmp b c.
Proof.
  rewrite eqb_cmp. unfold cmp.
  destruct (SFcompare (Prim2SF a) (Prim2SF b)) as [[ | | ] |] eqn:E;
    try discriminate.
  intros _. apply SFcompare_Eq_congr, E.
Qed.

Lemma eqb_cmp_r a b c : (a =? b) = true -> cmp c a = cmp c b.
Proof.
  intros H. rewrite (cmp_antisym a c), (cmp_antisym b c), (eqb_cmp_l a b c H).
  reflexivity.
Qed.

Lemma eqb_leb_l a b c : (a =? b) = true -> (a <=? c) = (b <=? c).
Proof. intros H. rewrite !leb_cmp, (eqb_cmp_l a b c H). reflexivity. Qed.

Lemma eqb_leb_r a b c : (a =? b) = true -> (c <=? a) = (c <=? b).
Proof. intros H. rewrite !leb_cmp, (eqb_cmp_r a b c H). reflexivity. Qed.

(** A finite number is not [NaN]. *)
Lemma is_finite_not_nan a :
  PrimFloat.is_finite a = true -> PrimFloat.is_nan a = false.
Proof.
  unfold PrimFloat.is_finite. destruct (PrimFloat.is_nan a); simpl; congruence.
Qed.

(** [Object.is] decides equality. *)
Lemma Object_is_eq a b : JS.Object_is a b = true <-> a = b.
Proof. apply Leibniz.eqb_spec. Qed.

Lemma Object_is_refl a : JS.Object_is a a = true.
Proof. apply Object_is_eq. reflexivity. Qed.

(** *** [Math.max] and [Math.min] *)

(** Away from [NaN] the result is one of the two arguments. *)
Lemma Math_max_cases a b :
  PrimFloat.is_nan a = false -> PrimFloat.is_nan b = false ->
  JS.Math_max a b = a \/ JS.Math_max a b = b.
Proof.
  intros Ha Hb. unfold JS.Math_max. rewrite Ha, Hb. simpl.
  destruct (a <? b), (b <? a), (PrimFloat.get_sign a); auto.
Qed.

Lemma Math_min_cases a b :
  PrimFloat.is_nan a = false -> PrimFloat.is_nan b = false ->
  JS.Math_min a b = a \/ JS.Math_min a b = b.
Proof.
  intros Ha Hb. unfold JS.Math_min. rewrite Ha, Hb. simpl.
  destruct (a <? b), (b <? a), (PrimFloat.get_sign a); auto.
Qed.

Lemma Math_max_not_nan a b :
  PrimFloat.is_nan a = false -> PrimFloat.is_nan b = false ->
  PrimFloat.is_nan (JS.Math_max a b) = false.
Proof.
  intros Ha Hb. destruct (Math_max_cases a b Ha Hb) as [-> | ->]; auto.
Qed.

Lemma Math_min_not_nan a b :
  PrimFloat.is_nan a = false -> PrimFloat.is_nan b = false ->
  PrimFloat.is_nan (JS.Math_min a b) = false.
Proof.
  intros Ha Hb. destruct (Math_min_cases a b Ha Hb) as [-> | ->]; auto.
Qed.

(** The maximum is above both arguments. *)
Lemma Math_max_ge_r a b :
  PrimFloat.is_nan a = false -> PrimFloat.is_nan b = false ->
  (b <=? JS.Math_max a b) = true.
Proof.
  intros Ha Hb. unfold JS.Math_max. rewrite Ha, Hb. simpl.
  destruct (a <? b) eqn:Eab; [apply leb_refl; auto |].
  destruct (b <? a) eqn:Eba; [apply ltb_leb; auto |].
  destruct (PrimFloat.get_sign a);
    [apply leb_refl | apply ltb_false_leb]; auto.
Qed.

Lemma Math_max_ge_l a b :
  PrimFloat.is_nan a = false -> PrimFloat.is_nan b = false ->
  (a <=? JS.Math_max a b) = true.
Proof.
  intros Ha Hb. unfold JS.Math_max. rewrite Ha, Hb. simpl.
  destruct (a <? b) eqn:Eab; [apply ltb_leb; auto |].
  destruct (b <? a) eqn:Eba; [apply leb_refl; auto |].
  destruct (PrimFloat.get_sign a);
    [apply ltb_false_leb | apply leb_refl]; auto.
Qed.

(** The minimum is below both arguments. *)
Lemma Math_min_le_r a b :
  PrimFloat.is_nan a = false -> PrimFloat.is_nan b = false ->
  (JS.Math_min a b <=? b) = true.
Proof.
  intros Ha Hb. unfold JS.Math_min. rewrite Ha, Hb. simpl.
  destruct (a <? b) eqn:Eab; [apply ltb_leb; auto |].
  destruct (b <? a) eqn:Eba; [apply leb_refl; auto |].
  destruct (PrimFloat.get_sign a);
    [apply ltb_false_leb | apply leb_refl]; auto.
Qed.

Lemma Math_min_le_l a b :
  PrimFloat.is_nan a = false -> PrimFloat.is_nan b = false ->
  (JS.Math_min a b <=? a) = true.
Proof.
  intros Ha Hb. unfold JS.Math_min. rewrite Ha, Hb. simpl.
  destruct (a <? b) eqn:Eab; [apply leb_refl; auto |].
  destruct (b <? a) eqn:Eba; [apply ltb_leb; auto |].
  destruct (PrimFloat.get_sign a);
    [apply leb_refl | apply ltb_false_leb]; auto.
Qed.

(** A candidate strictly on the wrong side of the other value is replaced
    by that value itself. *)
Lemma Math_max_lt a b : (a <? b) = true -> JS.Math_max a b = b.
Proof.
  intros H. destruct (ltb_not_nan a b H) as [Ha Hb].
  unfold JS.Math_max. rewrite Ha, Hb, H. reflexivity.
Qed.

Lemma Math_min_gt a b : (b <? a) = true -> JS.Math_min a b = b.
Proof.
  intros H. destruct (ltb_not_nan b a H) as [Hb Ha].
  unfold JS.Math_min. rewrite Ha, Hb, H. simpl.
  rewrite (leb_ltb_false b a (ltb_leb b a H)). reflexivity.
Qed.

(** A candidate on the wrong side of the other value, or on it, gives a
    result that is [===] to the other value. *)
Lemma Math_max_le a b : (a <=? b) = true -> (JS.Math_max a b =? b) = true.
Proof.
  intros H. destruct (leb_not_nan a b H) as [Ha Hb].
  unfold JS.Math_max. rewrite Ha, Hb. simpl.
  destruct (a <? b) eqn:Eab; [apply eqb_refl; auto |].
  rewrite (leb_ltb_false a b H).
  destruct (PrimFloat.get_sign a);
    [apply eqb_refl | apply leb_ltb_eqb]; auto.
Qed.

Lemma Math_min_ge a b : (b <=? a) = true -> (JS.Math_min a b =? b) = true.
Proof.
  intros H. destruct (leb_not_nan b a H) as [Hb Ha].
  unfold JS.Math_min. rewrite Ha, Hb. simpl.
  rewrite (leb_ltb_false b a H).
  destruct (b <? a) eqn:Eba; [apply eqb_refl; auto |].
  destruct (PrimFloat.get_sign a);
    [rewrite eqb_sym; apply leb_ltb_eqb | apply eqb_refl]; auto.
Qed.



(** The minimum and the maximum of an ordered pair are [===] to its
    components. *)
Lemma Math_min_ordered a b : (a <=? b) = true -> (JS.Math_min a b =? a) = true.
Proof.
  intros H. destruct (leb_not_nan a b H) as [Ha Hb].
  unfold JS.Math_min. rewrite Ha, Hb. simpl.
  destruct (a <? b) eqn:Eab; [apply eqb_refl; auto |].
  rewrite (leb_ltb_false a b H).
  destruct (PrimFloat.get_sign a); [apply eqb_refl; auto |].
  rewrite eqb_sym. apply leb_ltb_eqb; auto.
Qed.

Lemma Math_max_ordered a b : (a <=? b) = true -> (JS.Math_max a b =? b) = true.
Proof. apply Math_max_le. Qed.

End FloatOrder.

(** ** The liquidity aggregate *)

Module AggregateFacts.
Import JS Dashboard FloatOrder.

Lemma fold_included lo hi ticks acc :
  fold_left
    (fun sum t => if tickOverlapsRange t lo hi then sum + usdValue t else sum)
    ticks acc
  = addValues acc (included lo hi ticks).
Proof.
  revert acc. induction ticks as [| t ticks IH]; intros acc; simpl.
  - reflexivity.
  - destruct (tickOverlapsRange t lo hi); simpl; apply IH.
Qed.

(** The loop adds the values of the included ticks, in sequence order. *)
Lemma sumInRange_included ticks lo hi :
  sumInRange ticks lo hi = addValues 0 (included lo hi ticks).
Proof. apply fold_included. Qed.

Lemma included_none lo hi ticks :
  (forall t, In t ticks -> tickOverlapsRange t lo hi = false) ->
  included lo hi ticks = [].
Proof.
  induction ticks as [| t ticks IH]; intros H; simpl.
  - reflexivity.
  - rewrite (H t (or_introl eq_refl)). apply IH.
    intros t' Ht'. apply H. right. exact Ht'.
Qed.

Lemma included_Permutation lo hi ticks ticks' :
  Permutation ticks ticks' ->
  Permutation (included lo hi ticks) (included lo hi ticks').
Proof.
  unfold included. induction 1 as [| t l l' _ IH | t u l | l l' l'' _ IH1 _ IH2];
    simpl.
  - constructor.
  - destruct (tickOverlapsRange t lo hi); [constructor |]; exact IH.
  - destruct (tickOverlapsRange t lo hi), (tickOverlapsRange u lo hi);
      try apply Permutation_refl. apply perm_swap.
  - eapply Permutation_trans; eauto.
Qed.

(** A tick is tested against the normalized bounds; for ordered bounds
    that is the test against the bounds themselves. *)
Lemma tickOverlapsRange_normalized tick lower upper :
  (lower <=? upper) = true ->
  tickOverlapsRange tick (Math_min lower upper) (Math_max lower upper)
  = tickOverlapsRange tick lower upper.
Proof.
  intros H. unfold tickOverlapsRange.
  destruct (negb (isFinite (priceLowerUSD tick))
            || negb (isFinite (priceUpperUSD tick))); [reflexivity |].
  rewrite (eqb_leb_l _ _ _ (Math_min_ordered lower upper H)).
  rewrite (eqb_leb_r _ _ _ (Math_max_ordered lower upper H)).
  reflexivity.
Qed.

Lemma isFinite_nan_arg a : PrimFloat.is_nan a = true -> isFinite a = false.
Proof.
  intros H. unfold isFinite, PrimFloat.is_finite. rewrite H. reflexivity.
Qed.

(** Both normalized bounds are finite exactly when both bounds are. *)
Lemma normalizeRange_finite lower upper :
  isFinite (Math_min lower upper) && isFinite (Math_max lower upper)
  = isFinite lower && isFinite upper.
Proof.
  unfold Math_min, Math_max.
  destruct (PrimFloat.is_nan lower) eqn:Ha; simpl.
  - rewrite (isFinite_nan_arg lower Ha). reflexivity.
  - destruct (PrimFloat.is_nan upper) eqn:Hb; simpl.
    + rewrite (isFinite_nan_arg upper Hb), andb_false_r. reflexivity.
    + destruct (lower <? upper), (upper <? lower),
        (PrimFloat.get_sign lower); auto using andb_comm.
Qed.

(** The aggregate in one formula: unavailable for a bound that is not
    finite and for no ticks, and otherwise the sum over the included
    ticks, when that sum is finite. *)
Lemma totalLiquidityInRange_included ticks lower upper :
  totalLiquidityInRange ticks lower upper
  = if isFinite lower && isFinite upper then
      match ticks with
      | [] => None
      | _ =>
          finiteOrNull
            (addValues 0
               (included (Math_min lower upper) (Math_max lower upper) ticks))
      end
    else None.
Proof.
  unfold totalLiquidityInRange, normalizeRange.
  rewrite <- normalizeRange_finite, sumInRange_included.
  destruct (isFinite (Math_min lower upper)),
    (isFinite (Math_max lower upper)); reflexivity.
Qed.

(** C2, as stated, fails for the empty tick set: the aggregate of no
    ticks over the finite interval [100, 200] is unavailable, not the
    number 0. *)
Lemma totalLiquidityInRange_empty_unavailable :
  totalLiquidityInRange [] 100 200 = None
  /\ totalLiquidityInRange [] 100 200 <> Some 0.
Proof. split; [reflexivity | discriminate]. Qed.

(** C2 (amended): the aggregate of an empty tick set is unavailable; for
    finite bounds with [lower <= upper], the aggregate of a tick set that
    is not empty and in which no tick overlaps the interval is the number
    0; and the aggregate is unavailable only when a bound is not finite,
    the tick set is empty, or the accumulated sum is not finite. *)
Theorem totalLiquidityInRange_zero_or_unavailable
    (ticks : list Tick) (lower upper : float) :
  (ticks = [] -> totalLiquidityInRange ticks lower upper = None)
  /\ (ticks <> [] ->
      isFinite lower = true -> isFinite upper = true ->
      (lower <=? upper) = true ->
      (forall t, In t ticks -> tickOverlapsRange t lower upper = false) ->
      totalLiquidityInRange ticks lower upper = Some 0)
  /\ (totalLiquidityInRange ticks lower upper = None <->
      isFinite lower = false \/ isFinite upper = false \/ ticks = [] \/
      isFinite (sumInRange ticks (Math_min lower upper) (Math_max lower upper))
      = false).
Proof.
  split; [| split].
  - intros ->. unfold totalLiquidityInRange, normalizeRange.
    destruct (negb _ || negb _); reflexivity.
  - intros Hne Hl Hu Hle Hnone.
    rewrite totalLiquidityInRange_included, Hl, Hu. simpl.
    destruct ticks as [| t ticks]; [congruence |].
    rewrite included_none; [reflexivity |].
    intros t' Ht'. rewrite tickOverlapsRange_normalized by exact Hle.
    apply Hnone, Ht'.
  - rewrite totalLiquidityInRange_included, sumInRange_included.
    unfold finiteOrNull.
    destruct (isFinite lower), (isFinite upper); simpl;
      try (split; [auto | reflexivity]).
    destruct ticks as [| t ticks]; [split; auto |].
    destruct (isFinite (addValues 0 _)); split; intros H;
      try discriminate; auto.
    destruct H as [H | [H | [H | H]]]; discriminate.
Qed.

(** One tick over [90, 110] against the interval [200, 300]. *)
Lemma totalLiquidityInRange_zero_or_unavailable_witness :
  totalLiquidityInRange
    [ {| priceLowerUSD := 90; priceUpperUSD := 110; usdValue := 5 |} ] 200 300
  = Some 0.
Proof.
  apply (proj1 (proj2 (totalLiquidityInRange_zero_or_unavailable _ 200 300)));
    try reflexivity.
  - discriminate.
  - intros t [<- | []]. reflexivity.
Defined.



(** C8, as stated, fails: the three ticks with values 0.1, 0.2 and 0.3,
    all overlapping [100, 200], add up to 0.6000000000000001 in this order
    and to 0.6 in the reverse order. *)
Lemma totalLiquidityInRange_order_sensitive :
  let tick v := {| priceLowerUSD := 90; priceUpperUSD := 110; usdValue := v |} in
  Permutation [tick 0.1; tick 0.2; tick 0.3] [tick 0.3; tick 0.2; tick 0.1]
  /\ totalLiquidityInRange [tick 0.1; tick 0.2; tick 0.3] 100 200
     = Some 0.6000000000000001
  /\ totalLiquidityInRange [tick 0.3; tick 0.2; tick 0.1] 100 200
     = Some 0.6
  /\ (0.6000000000000001 =? 0.6) = false.
Proof.
  intros tick. split; [| split; [| split]]; try reflexivity.
  apply (Permutation_rev [tick 0.1; tick 0.2; tick 0.3]).
Qed.

(** C8 (amended): reordering the tick sequence reorders the ticks the
    aggregate adds up and changes nothing else: the included ticks of the
    two sequences are permutations of each other, and each aggregate is
    the double-precision sum of [usdValue] over its included ticks, taken
    from left to right in sequence order starting from 0 (unavailable
    when a bound is not finite, there is no tick, or the sum is not
    finite). *)
Theorem totalLiquidityInRange_reordering
    (ticks ticks' : list Tick) (lower upper : float) :
  Permutation ticks ticks' ->
  let lo := Math_min lower upper in
  let hi := Math_max lower upper in
  let aggregate ts :=
    if isFinite lower && isFinite upper && negb (Nat.eqb (length ts) 0)
    then finiteOrNull (addValues 0 (included lo hi ts)) else None in
  Permutation (included lo hi ticks) (included lo hi ticks')
  /\ length ticks = length ticks'
  /\ totalLiquidityInRange ticks lower upper = aggregate ticks
  /\ totalLiquidityInRange ticks' lower upper = aggregate ticks'.
Proof.
  intros HP lo hi aggregate.
  split; [apply included_Permutation, HP |].
  split; [apply Permutation_length, HP |].
  unfold aggregate. rewrite !totalLiquidityInRange_included.
  split; destruct (isFinite lower && isFinite upper); simpl;
    try reflexivity.
  - destruct ticks; reflexivity.
  - destruct ticks'; reflexivity.
Qed.

(** Two ticks, swapped. *)
Lemma totalLiquidityInRange_reordering_witness :
  let tick v := {| priceLowerUSD := 90; priceUpperUSD := 110; usdValue := v |} in
  Permutation
    (included (Math_min 100 200) (Math_max 100 200) [tick 1; tick 2])
    (included (Math_min 100 200) (Math_max 100 200) [tick 2; tick 1]).
Proof.
  intros tick.
  apply (totalLiquidityInRange_reordering [tick 1; tick 2] [tick 2; tick 1]
           100 200 (perm_swap _ _ _)).
Defined.

End AggregateFacts.

(** ** The return estimate *)

Module EstimateFacts.
Import JS Dashboard FloatOrder.
Import String.StringSyntax.
Local Open Scope string_scope.

(** The estimate with all three fields unavailable. *)
Lemma handleCalculate_not_estimable deposit L fees7 :
  estimable deposit L fees7 = false ->
  handleCalculate deposit L fees7
  = {| calcRequested := true; estFeesWeekly := Dash;
       estFeesDaily := Dash; estApr := Dash |}.
Proof.
  unfold estimable, handleCalculate. intros H.
  destruct (isFinite deposit) eqn:Fd; simpl in *; [| reflexivity].
  pose proof (is_finite_not_nan _ Fd) as Nd.
  destruct (0 <? deposit) eqn:Pd; simpl in *.
  2:{ rewrite (ltb_false_leb 0 deposit eq_refl Nd Pd). reflexivity. }
  rewrite (ltb_leb_false 0 deposit Pd).
  destruct L as [l |]; [| reflexivity].
  destruct fees7 as [f7 |]; [| reflexivity].
  destruct (isFinite l) eqn:Fl; simpl in *; [| reflexivity].
  pose proof (is_finite_not_nan _ Fl) as Nl.
  destruct (0 <? l) eqn:Pl; simpl in *.
  2:{ rewrite (ltb_false_leb 0 l eq_refl Nl Pl). reflexivity. }
  rewrite (ltb_leb_false 0 l Pl).
  destruct (isFinite f7) eqn:Ff; simpl in *; [| reflexivity].
  pose proof (is_finite_not_nan _ Ff) as Nf.
  rewrite (leb_false_ltb 0 f7 eq_refl Nf H). reflexivity.
Qed.

(** C5: for every input that violates a precondition of the estimate
    (deposit not finite or [<= 0], liquidity in range unavailable, not
    finite or [<= 0], fees of the last seven days unavailable, not finite
    or [< 0]) the estimator, a total function, leaves all three fields
    unavailable. *)
Theorem handleCalculate_unavailable
    (deposit : float) (L fees7 : option float) :
  estimable deposit L fees7 = false ->
  let r := handleCalculate deposit L fees7 in
  estFeesWeekly r = Dash /\ estFeesDaily r = Dash /\ estApr r = Dash.
Proof.
  intros H r. subst r. rewrite (handleCalculate_not_estimable _ _ _ H).
  repeat split.
Qed.

(** A liquidity of 0. *)
Lemma handleCalculate_unavailable_witness :
  let r := handleCalculate 1000 (Some 0) (Some 700) in
  estFeesWeekly r = Dash /\ estFeesDaily r = Dash /\ estApr r = Dash.
Proof.
  apply (handleCalculate_unavailable 1000 (Some 0) (Some 700)).
  reflexivity.
Defined.

(** The rate of the example is not 364 before it is formatted: the
    double [(700 / 10000) * 52 * 100] is 364.00000000000006, which the
    format rounds. *)
Lemma aprPct_example_rounded :
  (700 / 10000) * 52 * 100 = 364.00000000000006
  /\ fmtInt 364.00000000000006 = "364".
Proof. split; vm_compute; reflexivity. Qed.

(** C4: for every deposit, liquidity in range and fees of the last seven
    days that satisfy the preconditions, the estimator computes the
    weekly fees [(deposit / L) * fees7], the daily fees as the weekly
    fees divided by 7 and the rate [(fees7 / L) * 52 * 100], and shows
    each of them, formatted without fraction digits, after a dollar sign
    or before a percent sign (the dash when the number is not finite).
    For a deposit of 1000, a liquidity of 10000 and fees of 700 it shows
    $70, $10 and 364%. *)
Theorem handleCalculate_formulas :
  (forall deposit l f7 : float,
      estimable deposit (Some l) (Some f7) = true ->
      let weeklyFeesUSD := (deposit / l) * f7 in
      let dailyFeesUSD := weeklyFeesUSD / 7 in
      let aprPercent := (f7 / l) * 52 * 100 in
      handleCalculate deposit (Some l) (Some f7)
      = {| calcRequested := true;
       estFeesWeekly :=
         if isFinite weeklyFeesUSD
         then String.append "$" (Intl.format weeklyFeesUSD) else Dash;
       estFeesDaily :=
         if isFinite dailyFeesUSD
         then String.append "$" (Intl.format dailyFeesUSD) else Dash;
       estApr :=
         if isFinite aprPercent
         then String.append (Intl.format aprPercent) "%" else Dash |})
  /\ handleCalculate 1000 (Some 10000) (Some 700)
       = {| calcRequested := true; estFeesWeekly := "$70";
            estFeesDaily := "$10"; estApr := "364%" |}.
Proof.
  split; [| vm_compute; reflexivity]. intros deposit l f7.
  unfold estimable, handleCalculate, fmtUSD0, fmtInt. intros H.
  repeat (apply andb_prop in H; destruct H as [H ?]).
  repeat match goal with
         | E : (_ && _) = true |- _ => apply andb_prop in E; destruct E
         end.
  repeat match goal with
         | E : isFinite _ = true |- _ => rewrite E; clear E
         | E : (0 <? _) = true |- _ => rewrite (ltb_leb_false _ _ E); clear E
         | E : (0 <=? _) = true |- _ => rewrite (leb_ltb_false _ _ E); clear E
         end.
  cbn [negb orb].
  repeat match goal with
         | |- context [isFinite ?x] => destruct (isFinite x)
         end; reflexivity.
Qed.

(** A deposit of 2,000,000, a liquidity of 10000, fees of 700.3. *)
Lemma handleCalculate_formulas_witness :
  handleCalculate 2000000 (Some 10000) (Some 700.3)
  = {| calcRequested := true; estFeesWeekly := "$140,060";
       estFeesDaily := "$20,009"; estApr := "364%" |}.
Proof.
  exact (proj1 handleCalculate_formulas 2000000 10000 700.3 eq_refl).
Defined.

End EstimateFacts.

(** ** The fee summary *)

Module FeeSummaryFacts.
Import JS Dashboard FloatOrder.

(** No well-formed record is dropped by the filter. *)
Lemma feesOf_wellFormed dailyAll :
  Forall wellFormed dailyAll ->
  feesOf dailyAll
  = map (fun d => {| ts := day_ts d; feesUSD := toNumber (day_feesUSD d) |})
      dailyAll.
Proof.
  unfold feesOf. induction 1 as [| d l (Hts & f & Hf & Hfin) _ IH]; simpl.
  - reflexivity.
  - rewrite Hts, Hf. simpl. rewrite Hfin. simpl. f_equal. exact IH.
Qed.

(** A window at least as long as the array is the whole array. *)
Lemma slice_last_all {A : Type} (n : nat) (arr : list A) :
  (length arr <= n)%nat -> slice_last n arr = arr.
Proof.
  intros H. destruct n as [| n]; simpl; [reflexivity |].
  replace (length arr - S n)%nat with 0%nat by lia. reflexivity.
Qed.

(** A shorter window holds the trailing [n] elements. *)
Lemma slice_last_trailing {A : Type} (n : nat) (arr : list A) :
  (0 < n <= length arr)%nat ->
  exists front,
    arr = front ++ slice_last n arr /\ length (slice_last n arr) = n.
Proof.
  intros [Hn Hle]. destruct n as [| n]; [lia |].
  exists (firstn (length arr - S n) arr). unfold slice_last. split.
  - symmetry. apply firstn_skipn.
  - rewrite length_skipn. lia.
Qed.

(** C7, as stated, fails when the sum is not a finite number: for two
    daily records with fees of 1e308 each, the sum of the trailing seven
    (both records) is infinite and [last7d] is unavailable. *)
Lemma feesSummary_overflow_unavailable :
  let day t f :=
    {| day_ts := t; day_price := 3000; day_feesUSD := Some f |} in
  let dailyAll := [day 1700000000 1e308; day 1700086400 1e308] in
  last7d (feesSummary dailyAll) = None
  /\ sumFees (slice_last 7 (feesOf dailyAll)) = infinity
  /\ last1d (feesSummary dailyAll) = Some 1e308.
Proof. repeat split. Qed.

(** C7 (amended): with [fees] the records that have a finite timestamp
    and fee (all of them, for well-formed records), every field of the
    summary is unavailable when [fees] is empty; otherwise [last1d] is the
    fee of the last record, and [last7d] and [last30d] are the sums, in
    double precision from left to right starting from 0, of the fees of
    the trailing 7 and 30 records by position (of all records when there
    are fewer), each unavailable when that sum is not finite. *)
Theorem feesSummary_trailing_sums (dailyAll : list DayPoint) :
  let fees := feesOf dailyAll in
  let s := feesSummary dailyAll in
  (dailyAll = [] -> fees = [])
  /\ (Forall wellFormed dailyAll ->
      fees = map (fun d => {| ts := day_ts d;
                              feesUSD := toNumber (day_feesUSD d) |})
               dailyAll)
  /\ (fees = [] ->
      last1d s = None /\ last7d s = None /\ last30d s = None)
  /\ (forall l, last fees = Some l ->
      last1d s = Some (feesUSD l)
      /\ last7d s = finiteOrNull (sumFees (slice_last 7 fees))
      /\ last30d s = finiteOrNull (sumFees (slice_last 30 fees)))
  /\ (forall n, (length fees <= n)%nat -> slice_last n fees = fees)
  /\ (forall n, (0 < n <= length fees)%nat ->
      exists front,
        fees = front ++ slice_last n fees /\ length (slice_last n fees) = n).
Proof.
  intros fees s. subst fees s.
  split; [intros ->; reflexivity |].
  split; [apply feesOf_wellFormed |].
  split; [| split; [| split]].
  - intros E. unfold feesSummary. rewrite E. repeat split.
  - intros l E. unfold feesSummary. rewrite E. repeat split.
  - intros n. apply slice_last_all.
  - intros n. apply slice_last_trailing.
Qed.

(** A single record with a fee of 10. *)
Lemma feesSummary_trailing_sums_witness :
  let dailyAll :=
    [ {| day_ts := 1700000000; day_price := 3000; day_feesUSD := Some 10 |} ] in
  let s := feesSummary dailyAll in
  last1d s = Some 10 /\ last7d s = Some 10 /\ last30d s = Some 10.
Proof.
  intros dailyAll s.
  destruct (feesSummary_trailing_sums dailyAll) as (_ & _ & _ & H & _).
  exact (H {| ts := 1700000000; feesUSD := 10 |} eq_refl).
Defined.

End FeeSummaryFacts.

(** ** The range bounds *)

Module ControllerFacts.
Import JS Dashboard FloatOrder.

Lemma Label_eqb_eq a b : Label_eqb a b = true <-> a = b.
Proof. destruct a, b; simpl; split; congruence. Qed.

Lemma setValue_self line : setValue (value line) line = line.
Proof. destruct line; reflexivity. Qed.

(** What [find] returns is a line of the array with the label asked for. *)
Lemma findLabel_Some objs lbl ls l :
  findLabel objs lbl ls = Some (Some l) ->
  exists line, objs !! l = Some line /\ label line = lbl /\ In l ls.
Proof.
  induction ls as [| l0 ls IH]; simpl; [discriminate |].
  destruct (objs !! l0) as [line0 |] eqn:E0; [| discriminate].
  destruct (Label_eqb (label line0) lbl) eqn:El.
  - intros [= <-]. apply Label_eqb_eq in El. eauto.
  - intros H. destruct (IH H) as (line & ? & ? & ?). eauto.
Qed.

(** A drag move stores one value in the dragged object and nothing
    else. *)
Lemma dragMove_spec yScale ey ls d objs objs' dl :
  objs !! d = Some dl ->
  dragMove yScale ey ls d objs = Some objs' ->
  exists o oline,
    findLabel objs (facing (label dl)) ls = Some (Some o)
    /\ objs !! o = Some oline
    /\ objs' =
       <[d := setValue
                (held (label dl) (axisClamped yScale ey) (value oline)) dl]>
         objs.
Proof.
  intros Hd. unfold dragMove. rewrite Hd. simpl.
  destruct (findLabel objs UpperBound ls) as [upper |] eqn:Eu;
    [| discriminate]. simpl.
  destruct (findLabel objs LowerBound ls) as [lower |] eqn:El;
    [| discriminate]. simpl.
  destruct (label dl); simpl.
  - destruct lower as [lo |]; [| discriminate]. simpl.
    destruct (objs !! lo) as [lline |] eqn:Elo; [| discriminate]. simpl.
    intros [= <-]. eauto.
  - destruct upper as [up |]; [| discriminate]. simpl.
    destruct (objs !! up) as [uline |] eqn:Eup; [| discriminate]. simpl.
    intros [= <-]. eauto.
Qed.

(** A pointer move while a line is dragged: no setter is called, the
    array and the dragged reference stay, and the objects change by one
    drag move. *)
Lemma afterEvent_mousemove yScale chartArea event c c' calls d :
  MouseEvent.type event = mousemove ->
  dragging c = Some d ->
  afterEvent (Some yScale) (Some chartArea) event c = Some (c', calls) ->
  calls = [] /\ lines c' = lines c /\ dragging c' = Some d
  /\ match lines c with
     | Some ls =>
         dragMove yScale (MouseEvent.y event) ls d (objs c) = Some (objs c')
     | None => objs c' = objs c
     end.
Proof.
  intros Hty Hd. unfold afterEvent.
  destruct (lines c) as [ls |] eqn:El.
  2:{ intros [= <- <-]. rewrite El. auto. }
  unfold grabBlock, moveBlock, releaseBlock. rewrite Hty, Hd. simpl.
  destruct (dragMove yScale (MouseEvent.y event) ls d (objs c))
    as [os |] eqn:Em; simpl; [| discriminate].
  intros [= <- <-]; simpl; auto.
Qed.

(** A pointer move calls no setter. *)
Lemma afterEvent_mousemove_calls yScale chartArea event c c' calls :
  MouseEvent.type event = mousemove ->
  afterEvent yScale chartArea event c = Some (c', calls) ->
  calls = [].
Proof.
  intros Hty. unfold afterEvent.
  destruct (lines c) as [ls |]; [| intros [= <- <-]; reflexivity].
  destruct yScale as [yScale |]; [| intros [= <- <-]; reflexivity].
  destruct chartArea as [chartArea |]; [| intros [= <- <-]; reflexivity].
  unfold grabBlock, moveBlock, releaseBlock. rewrite Hty. simpl.
  destruct (dragging c) as [d |]; simpl.
  - destruct (dragMove _ _ _ _ _); simpl; [| discriminate].
    intros [= <- <-]. reflexivity.
  - intros [= <- <-]; reflexivity.
Qed.

(** The clamp keeps a value inside an ordered range. *)
Lemma clamp_within v lo hi :
  PrimFloat.is_nan v = false -> (lo <=? hi) = true ->
  (lo <=? clamp v lo hi) = true /\ (clamp v lo hi <=? hi) = true.
Proof.
  intros Hv Hle. destruct (leb_not_nan lo hi Hle) as [Hlo Hhi].
  pose proof (Math_min_not_nan hi v Hhi Hv) as Hm.
  unfold clamp. split.
  - apply Math_max_ge_l; assumption.
  - destruct (Math_max_cases lo (Math_min hi v) Hlo Hm) as [-> | ->].
    + exact Hle.
    + apply Math_min_le_l; assumption.
Qed.

(** C10: an operation on one bound leaves the other alone.  A pointer
    move while a line is dragged calls no setter, keeps [chart.$lines],
    changes the value of the dragged object only and leaves every other
    line object, the facing line among them, as it was; it changes
    neither bound of the component.  [applyUpper] leaves the lower bound
    and [applyLower] the upper bound, and for an input that is not finite
    both leave the whole state. *)
Theorem bound_updates_frame :
  (forall yScale chartArea event c c' calls d dl,
      MouseEvent.type event = mousemove ->
      dragging c = Some d ->
      objs c !! d = Some dl ->
      afterEvent (Some yScale) (Some chartArea) event c = Some (c', calls) ->
      calls = []
      /\ lines c' = lines c
      /\ (exists v, objs c' !! d = Some (setValue v dl))
      /\ (forall l, l <> d -> objs c' !! l = objs c !! l)
      /\ (forall l line,
             objs c !! l = Some line -> label line = facing (label dl) ->
             objs c' !! l = Some line))
  /\ (forall s yScale chartArea event s',
         MouseEvent.type event = mousemove ->
         step s (ChartEvent yScale chartArea event) = Some s' ->
         upperValue s' = upperValue s /\ lowerValue s' = lowerValue s)
  /\ (forall n s, lowerValue (applyUpper n s) = lowerValue s)
  /\ (forall n s, upperValue (applyLower n s) = upperValue s)
  /\ (forall n s, isFinite n = false ->
         applyUpper n s = s /\ applyLower n s = s).
Proof.
  split; [| split; [| split; [| split]]].
  - intros yScale chartArea event c c' calls d dl Hty Hd Hdl H.
    destruct (afterEvent_mousemove _ _ _ _ _ _ _ Hty Hd H)
      as (Hc & Hl & _ & Hm).
    split; [exact Hc |]. split; [exact Hl |].
    destruct (lines c) as [ls |].
    + destruct (dragMove_spec _ _ _ _ _ _ _ Hdl Hm) as (o & oline & _ & _ & ->).
      assert (Hne : forall l, l <> d ->
                 <[d := setValue
                          (held (label dl) (axisClamped yScale (MouseEvent.y event))
                             (value oline)) dl]> (objs c) !! l = objs c !! l).
      { intros l Hne. apply list_lookup_insert_ne. congruence. }
      split; [| split].
      * eexists. apply list_lookup_insert_eq. eapply lookup_lt_Some, Hdl.
      * exact Hne.
      * intros l line Hline Hlab. rewrite Hne; [exact Hline |].
        intros ->. rewrite Hdl in Hline. injection Hline as <-.
        destruct (label dl); discriminate.
    + rewrite Hm. split; [| split].
      * exists (value dl). rewrite setValue_self. exact Hdl.
      * reflexivity.
      * intros l line Hline _. exact Hline.
  - intros s yScale chartArea event s' Hty. unfold step.
    destruct (afterEvent yScale chartArea event (chart s))
      as [[c calls] |] eqn:E; simpl; [| discriminate].
    rewrite (afterEvent_mousemove_calls _ _ _ _ _ _ Hty E). simpl.
    intros [= <-]. split; reflexivity.
  - intros n s. unfold applyUpper. destruct (negb (isFinite n)); reflexivity.
  - intros n s. unfold applyLower. destruct (negb (isFinite n)); reflexivity.
  - intros n s H. unfold applyUpper, applyLower. rewrite H. split; reflexivity.
Qed.

(** C9: with price data loaded and [p] the latest price, the reset sets
    the lower bound to [p * 0.95] and the upper bound to [p * 1.05]
    whatever the state was; a second reset changes nothing; and with no
    price data the reset changes nothing. *)
Theorem handleReset_bounds (s : App) :
  (forall p, currentPrice s = Some p -> isFinite p = true ->
      lowerValue (handleReset s) = p * 0.95
      /\ upperValue (handleReset s) = p * 1.05)
  /\ handleReset (handleReset s) = handleReset s
  /\ (currentPrice s = None -> handleReset s = s).
Proof.
  split; [| split].
  - intros p Hp Hfin. unfold handleReset. rewrite Hp, Hfin. simpl.
    split; reflexivity.
  - unfold handleReset at 2.
    destruct (currentPrice s) as [p |] eqn:Hp.
    2:{ unfold handleReset. rewrite Hp. reflexivity. }
    destruct (isFinite p) eqn:Hfin; simpl.
    2:{ unfold handleReset. rewrite Hp, Hfin. reflexivity. }
    unfold handleReset.
    change (currentPrice (setBounds (p * 1.05) (p * 0.95) s))
      with (currentPrice s).
    rewrite Hp, Hfin. simpl. unfold setBounds at 1. simpl.
    rewrite !Object_is_refl. reflexivity.
  - intros Hp. unfold handleReset. rewrite Hp. reflexivity.
Qed.

(** A reset after the upper bound was typed in as 5000, with a latest
    price of 3000. *)
Lemma handleReset_bounds_witness :
  let s := applyUpper 5000 (hourlyLoaded Scenario.hourly initial) in
  upperValue s = 5000
  /\ lowerValue (handleReset s) = 2850
  /\ upperValue (handleReset s) = 3150.
Proof.
  intros s. split; [reflexivity |].
  exact (proj1 (handleReset_bounds s) 3000 eq_refl eq_refl).
Defined.

(** The upper line dragged to 500: the bounds and the lower line are as
    before. *)
Lemma bound_updates_frame_witness :
  match run initial Scenario.grabAndDrag with
  | Some s =>
      upperValue s = 1000 /\ lowerValue s = -1000
      /\ objs (chart s) !! 1%nat
         = Some {| label := LowerBound; value := -1000;
                   onDragEnd := setLowerValue |}
  | None => False
  end.
Proof.
  pose (c := {| objs := objs (chart initial); lines := lines (chart initial);
                dragging := Some 0%nat;
                cursorY := None; cursorVal := None |}).
  pose (ev := {| MouseEvent.type := mousemove;
                 MouseEvent.x := 400; MouseEvent.y := 145 |}).
  destruct (proj1 bound_updates_frame Scenario.yScale Scenario.chartArea ev c
              {| objs := <[0%nat := setValue 500
                                     {| label := UpperBound; value := 1000;
                                        onDragEnd := setUpperValue |}]>
                           (objs c);
                 lines := lines c; dragging := Some 0%nat;
                 cursorY := None; cursorVal := None |}
              [] 0%nat _ eq_refl eq_refl eq_refl eq_refl)
    as (_ & _ & _ & _ & H).
  split; [reflexivity |]. split; [reflexivity |].
  exact (H 1%nat _ eq_refl eq_refl).
Defined.

(** C6, as stated, fails for the dragger plugin of [App.jsx]: with the
    upper line at 100, dragging the lower line to the pointer value 150
    leaves it at [100 - 0.01], below the upper line's value and not equal
    to it; the pointer value is not clamped to the axis either. *)
Lemma dragger_keeps_offset :
  let s :=
    {| LegacyApp.activeAnnotationElement := Some LegacyApp.lowerLine;
       LegacyApp.isDraggingAnnotation := true;
       LegacyApp.lowerPrice := Some 90;
       LegacyApp.upperPrice := Some 100 |} in
  let yScale :=
    {| Scale.min := 0; Scale.max := 120;
       Scale.getValueForPixel := fun px => 200 - px;
       Scale.getPixelForValue := fun v => 200 - v |} in
  let event :=
    {| MouseEvent.type := mousemove;
       MouseEvent.x := 400; MouseEvent.y := 50 |} in
  LegacyApp.lowerPrice (LegacyApp.afterEvent yScale (Some event) s)
  = Some (100 - 0.01)
  /\ (100 - 0.01 =? 100) = false
  /\ (100 - 0.01 <? 100) = true.
Proof. repeat split. Qed.

(** C6 (amended): in the dashboard's plugin a drag move clamps the
    pointer value to the visible axis (inside it when the axis is an
    ordered finite range) and then holds it against the facing line of
    [chart.$lines]: a candidate that reaches or crosses the facing line
    gives the dragged line a value equal to the facing line's, the very
    same number when it crosses, with no offset.  The dragger plugin of
    [App.jsx] does not clamp to the axis and puts a candidate that
    reaches or crosses the other line 0.01 short of it. *)
Theorem drag_clamp_against_other_bound :
  (forall yScale ey ls d objs objs' dl,
      objs !! d = Some dl ->
      dragMove yScale ey ls d objs = Some objs' ->
      let c := axisClamped yScale ey in
      exists o oline dl',
        findLabel objs (facing (label dl)) ls = Some (Some o)
        /\ objs !! o = Some oline
        /\ label oline = facing (label dl)
        /\ objs' !! d = Some dl'
        /\ label dl' = label dl
        /\ value dl' = held (label dl) c (value oline)
        /\ match label dl with
           | UpperBound =>
               ((c <=? value oline) = true ->
                (value dl' =? value oline) = true)
               /\ ((c <? value oline) = true -> value dl' = value oline)
           | LowerBound =>
               ((value oline <=? c) = true ->
                (value dl' =? value oline) = true)
               /\ ((value oline <? c) = true -> value dl' = value oline)
           end)
  /\ (forall yScale ey,
         isFinite (Scale.min yScale) = true ->
         isFinite (Scale.max yScale) = true ->
         (Scale.min yScale <=? Scale.max yScale) = true ->
         PrimFloat.is_nan (Scale.getValueForPixel yScale ey) = false ->
         axisClamped yScale ey
         = clamp (Scale.getValueForPixel yScale ey)
             (Scale.min yScale) (Scale.max yScale)
         /\ (Scale.min yScale <=? axisClamped yScale ey) = true
         /\ (axisClamped yScale ey <=? Scale.max yScale) = true)
  /\ (forall yScale event s up,
         MouseEvent.type event = mousemove ->
         LegacyApp.isDraggingAnnotation s = true ->
         LegacyApp.activeAnnotationElement s = Some LegacyApp.lowerLine ->
         LegacyApp.upperPrice s = Some up ->
         (up <=? Scale.getValueForPixel yScale (MouseEvent.y event)) = true ->
         LegacyApp.lowerPrice (LegacyApp.afterEvent yScale (Some event) s)
         = Some (up - 0.01))
  /\ (forall yScale event s lo,
         MouseEvent.type event = mousemove ->
         LegacyApp.isDraggingAnnotation s = true ->
         LegacyApp.activeAnnotationElement s = Some LegacyApp.upperLine ->
         LegacyApp.lowerPrice s = Some lo ->
         (Scale.getValueForPixel yScale (MouseEvent.y event) <=? lo) = true ->
         LegacyApp.upperPrice (LegacyApp.afterEvent yScale (Some event) s)
         = Some (lo + 0.01)).
Proof.
  split; [| split; [| split]].
  - intros yScale ey ls d objs objs' dl Hdl Hm c.
    destruct (dragMove_spec _ _ _ _ _ _ _ Hdl Hm) as (o & oline & Hf & Ho & ->).
    destruct (findLabel_Some _ _ _ _ Hf) as (oline' & Ho' & Hlab & _).
    rewrite Ho in Ho'. injection Ho' as <-.
    exists o, oline. eexists. split; [exact Hf |]. split; [exact Ho |].
    split; [exact Hlab |].
    split; [apply list_lookup_insert_eq; eapply lookup_lt_Some, Hdl |].
    split; [reflexivity |]. split; [reflexivity |].
    fold c. destruct (label dl); simpl; split.
    + apply Math_max_le.
    + apply Math_max_lt.
    + apply Math_min_ge.
    + apply Math_min_gt.
  - intros yScale ey Hmin Hmax Hle Hv. unfold axisClamped.
    rewrite Hmin, Hmax. split; [reflexivity |].
    apply clamp_within; assumption.
  - intros yScale event s up Hty Hdr Hact Hup Hle.
    unfold LegacyApp.afterEvent. rewrite Hty, Hdr, Hact. simpl.
    rewrite Hup, Hle. reflexivity.
  - intros yScale event s lo Hty Hdr Hact Hlo Hle.
    unfold LegacyApp.afterEvent. rewrite Hty, Hdr, Hact. simpl.
    rewrite Hlo, Hle. reflexivity.
Qed.

(** The lower line dragged above the upper line stops at its value. *)
Lemma drag_clamp_against_other_bound_witness :
  let objs := objs (chart initial) in
  (* the lower line, dragged to pixel 5 of the initial axis: the value 1060 *)
  exists objs' dl',
    dragMove Scenario.yScale 5 [0%nat; 1%nat] 1%nat objs = Some objs'
    /\ objs' !! 1%nat = Some dl'
    /\ value dl' = 1000.
Proof.
  intros objs.
  destruct (proj1 drag_clamp_against_other_bound Scenario.yScale 5
              [0%nat; 1%nat] 1%nat objs
              (<[1%nat := setValue 1000
                            {| label := LowerBound; value := -1000;
                               onDragEnd := setLowerValue |}]> objs)
              _ eq_refl eq_refl)
    as (o & oline & dl' & Hf & Ho & _ & Hd & _ & Hv & _).
  exists (<[1%nat := setValue 1000
                       {| label := LowerBound; value := -1000;
                          onDragEnd := setLowerValue |}]> objs), dl'.
  split; [reflexivity |]. split; [exact Hd |].
  injection Hf as <-. injection Ho as <-. exact Hv.
Defined.

(** *** The order of the bounds

    The bounds stay ordered along every sequence of events that keeps to
    the gestures: [bounds_ordered_within_gestures] below.  The failing
    session after it leaves that frame in one place, the arrival of the
    series while a line is dragged. *)

(** New lines for ordered bounds make a consistent chart. *)
Lemma ChartInvariant_setLines c up lo :
  (lo <=? up) = true -> dragging c = None ->
  ChartInvariant up lo (setLines up lo c).
Proof.
  intros Hle Hd. unfold ChartInvariant, setLines. simpl.
  exists (length (objs c)), (S (length (objs c))).
  eexists. eexists.
  split; [reflexivity |]. split; [lia |].
  split. { apply list_lookup_middle. reflexivity. }
  split. { rewrite (cons_middle _ (objs c)), app_assoc.
           apply list_lookup_middle. rewrite length_app. simpl. lia. }
  simpl. rewrite Hd. repeat split; auto.
Qed.

(** Setting ordered bounds while nothing is dragged: the chart keeps its
    lines when neither bound changed and gets new ones otherwise. *)
Lemma ChartInvariant_setBounds u l c up lo :
  (u = up -> l = lo -> ChartInvariant up lo c) ->
  dragging c = None -> (lo <=? up) = true ->
  ChartInvariant up lo
    (if Object_is u up && Object_is l lo then c else setLines up lo c).
Proof.
  intros HI Hd Hle.
  destruct (Object_is u up && Object_is l lo) eqn:E.
  - apply andb_prop in E. destruct E as [E1 E2].
    apply Object_is_eq in E1, E2. auto.
  - apply ChartInvariant_setLines; assumption.
Qed.

(** The clamped pointer value is a number when the pointer value is. *)
Lemma axisClamped_not_nan yScale ey :
  PrimFloat.is_nan (Scale.getValueForPixel yScale ey) = false ->
  PrimFloat.is_nan (axisClamped yScale ey) = false.
Proof.
  intros Hv. unfold axisClamped, clamp.
  apply Math_max_not_nan; [| apply Math_min_not_nan; [| exact Hv]].
  - destruct (isFinite (Scale.min yScale)) eqn:E; [| exact Hv].
    apply is_finite_not_nan, E.
  - destruct (isFinite (Scale.max yScale)) eqn:E; [| exact Hv].
    apply is_finite_not_nan, E.
Qed.

(** The invariant reads the bounds and the chart only. *)
Lemma Invariant_same_bounds s s' :
  upperValue s' = upperValue s -> lowerValue s' = lowerValue s ->
  chart s' = chart s -> Invariant s -> Invariant s'.
Proof. unfold Invariant. intros -> -> ->. auto. Qed.

(** [find] on the two lines of a consistent chart. *)
Lemma findLabel_pair objs lu ll U L :
  objs !! lu = Some U -> objs !! ll = Some L ->
  label U = UpperBound -> label L = LowerBound ->
  findLabel objs UpperBound [lu; ll] = Some (Some lu)
  /\ findLabel objs LowerBound [lu; ll] = Some (Some ll).
Proof.
  intros HU HL HlU HlL. simpl. rewrite HU, HL, HlU, HlL. simpl. auto.
Qed.


(** The release of a line, for [mouseup] and [mouseout] alike: the value
    of the dragged object goes to its setter. *)
Ltac released :=
  match goal with
  | Hdr : match dragging (chart ?s) with _ => _ end,
    HU : objs (chart ?s) !! ?lu = Some ?U,
    HL : objs (chart ?s) !! ?ll = Some ?L,
    HeU : onDragEnd ?U = setUpperValue,
    HeL : onDragEnd ?L = setLowerValue,
    HleL : (value ?L <=? value ?U) = true |- _ =>
      let d := fresh "d" in
      let Hd := fresh "Hd" in
      let HvU := fresh "HvU" in
      let HvL := fresh "HvL" in
      destruct (dragging (chart s)) as [d |] eqn:Hd; simpl;
      [ destruct Hdr as [[-> HvL] | [-> HvU]];
        [ rewrite HU; simpl; rewrite HeU; simpl;
          eexists; split; [reflexivity |]; unfold Invariant, setBounds; simpl;
          rewrite <- HvL in *;
          apply ChartInvariant_setBounds; [| reflexivity | exact HleL];
          intros _ _; exists lu, ll, U, L; simpl; repeat split; auto
        | rewrite HL; simpl; rewrite HeL; simpl;
          eexists; split; [reflexivity |]; unfold Invariant, setBounds; simpl;
          rewrite <- HvU in *;
          apply ChartInvariant_setBounds; [| reflexivity | exact HleL];
          intros _ _; exists lu, ll, U, L; simpl; repeat split; auto ]
      | destruct Hdr as [HvU HvL]; eexists; split; [reflexivity |];
        exists lu, ll, U, L; simpl; repeat split; auto ]
  end.

(** An admissible event does not throw and keeps the invariant. *)
Lemma step_Invariant s ev :
  Invariant s -> admissible s ev -> exists s', step s ev = Some s' /\ Invariant s'.
Proof.
  intros HI Ha. destruct ev as [yScale chartArea event | n | n | mapped |].
  - (* a pointer event *)
    destruct yScale as [yScale |], chartArea as [chartArea |];
      try (unfold step, afterEvent; destruct (lines (chart s));
           simpl; eexists; (split; [reflexivity |]);
           apply (Invariant_same_bounds s); auto; fail).
    pose proof HI as HI0.
    destruct HI as (lu & ll & U & L & Hls & Hne & HU & HL & HlU & HlL
                    & HeU & HeL & Hle & HleL & Hdr).
    unfold step, afterEvent. rewrite Hls.
    unfold grabBlock, moveBlock, releaseBlock. simpl in Ha.
    destruct (MouseEvent.type event) eqn:Hty; simpl.
    + (* mousedown: nothing is dragged yet *)
      destruct (dragging (chart s)) as [d |] eqn:Hd; [contradiction |].
      destruct Hdr as [HvU HvL].
      rewrite HL, HU.
      destruct (inside chartArea event); simpl;
        [destruct (_ <? 6); simpl; [| destruct (_ <? 6); simpl] |];
        (eexists; split; [reflexivity |]);
        exists lu, ll, U, L; simpl; rewrite ?Hd; repeat split; auto.
    + (* mousemove *)
      destruct (dragging (chart s)) as [d |] eqn:Hd; simpl.
      2:{ destruct Hdr as [HvU HvL]. eexists; split; [reflexivity |].
          exists lu, ll, U, L; simpl; rewrite ?Hd; repeat split; auto. }
      pose proof (axisClamped_not_nan _ _ Ha) as Hc.
      destruct (findLabel_pair _ _ _ _ _ HU HL HlU HlL) as [Hfu Hfl].
      destruct (leb_not_nan _ _ HleL) as [HnL HnU].
      unfold dragMove. rewrite Hfu, Hfl.
      destruct Hdr as [[-> HvL] | [-> HvU]].
      * rewrite HU. simpl. rewrite HlU, HL. simpl.
        eexists; split; [reflexivity |].
        exists lu, ll. eexists. exists L. simpl.
        split; [reflexivity |]. split; [exact Hne |].
        split; [apply list_lookup_insert_eq; eapply lookup_lt_Some, HU |].
        split; [rewrite list_lookup_insert_ne by exact Hne; exact HL |].
        simpl. repeat split; auto.
        apply Math_max_ge_r; assumption.
      * rewrite HL. simpl. rewrite HlL, HU. simpl.
        eexists; split; [reflexivity |].
        exists lu, ll, U. eexists. simpl.
        split; [reflexivity |]. split; [exact Hne |].
        split; [rewrite list_lookup_insert_ne by congruence; exact HU |].
        split; [apply list_lookup_insert_eq; eapply lookup_lt_Some, HL |].
        simpl. repeat split; auto.
        apply Math_min_le_r; assumption.
    + (* mouseup *) released.
    + (* mouseout *) released.
  - (* a typed upper bound *)
    simpl in Ha. simpl. eexists; split; [reflexivity |].
    unfold applyUpper. destruct (isFinite n) eqn:Hn; simpl; [| exact HI].
    destruct HI as (lu & ll & U & L & Hls & Hne & HU & HL & HlU & HlL
                    & HeU & HeL & Hle & HleL & Hdr).
    destruct (leb_not_nan _ _ Hle) as [Hnl _].
    apply ChartInvariant_setBounds; [| exact Ha |].
    + intros E _. rewrite <- E. exists lu, ll, U, L. repeat split; auto.
    + apply Math_max_ge_r; [apply is_finite_not_nan, Hn | exact Hnl].
  - (* a typed lower bound *)
    simpl in Ha. simpl. eexists; split; [reflexivity |].
    unfold applyLower. destruct (isFinite n) eqn:Hn; simpl; [| exact HI].
    destruct HI as (lu & ll & U & L & Hls & Hne & HU & HL & HlU & HlL
                    & HeU & HeL & Hle & HleL & Hdr).
    destruct (leb_not_nan _ _ Hle) as [_ Hnu].
    apply ChartInvariant_setBounds; [| exact Ha |].
    + intros _ E. rewrite <- E. exists lu, ll, U, L. repeat split; auto.
    + apply Math_min_le_r; [apply is_finite_not_nan, Hn | exact Hnu].
  - (* the hourly series arrives *)
    destruct Ha as [Hd Hseed]. simpl. eexists; split; [reflexivity |].
    unfold hourlyLoaded.
    destruct (last mapped) as [l |] eqn:El; [| exact HI].
    destruct (didInitBoundsRef s); simpl; [exact HI |].
    apply ChartInvariant_setBounds; [| exact Hd | exact (Hseed l eq_refl)].
    intros E1 E2. rewrite <- E1, <- E2. exact HI.
  - (* the reset button *)
    destruct Ha as [Hd Hseed]. simpl. eexists; split; [reflexivity |].
    unfold handleReset.
    destruct (currentPrice s) as [p |] eqn:Ep; [| exact HI].
    destruct (isFinite p); simpl; [| exact HI].
    apply ChartInvariant_setBounds; [| exact Hd | exact (Hseed p eq_refl)].
    intros E1 E2. rewrite <- E1, <- E2. exact HI.
Qed.

(** The component starts in a consistent state. *)
Lemma Invariant_initial : Invariant initial.
Proof.
  exists 0%nat, 1%nat. eexists. eexists.
  repeat split; try reflexivity. discriminate.
Qed.

(** A prefix of an admissible sequence is admissible. *)
Lemma admissibleRun_firstn n : forall evs s,
  admissibleRun s evs -> admissibleRun s (firstn n evs).
Proof.
  induction n as [| n IH]; intros evs s Ha; [exact I |].
  destruct evs as [| ev evs]; [exact I |].
  destruct Ha as [Ha Hrest]. simpl. split; [exact Ha |].
  destruct (step s ev); [apply IH, Hrest | exact I].
Qed.

Lemma run_Invariant evs : forall s,
  Invariant s -> admissibleRun s evs ->
  exists s', run s evs = Some s' /\ Invariant s'.
Proof.
  induction evs as [| ev evs IH]; intros s HI Ha; simpl.
  - exists s. split; [reflexivity | exact HI].
  - destruct Ha as [Ha Hrest].
    destruct (step_Invariant s ev HI Ha) as (s1 & Hs & HI1).
    rewrite Hs in *. simpl. apply IH; assumption.
Qed.

(** X1: along a sequence of events that keeps to the gestures, from a
    consistent state, no handler throws and after every event the lower
    bound is at most the upper bound. *)
Theorem bounds_ordered_within_gestures (evs : list Event) (s : App) (n : nat) :
  Invariant s -> admissibleRun s evs ->
  exists s',
    run s (firstn n evs) = Some s'
    /\ Invariant s'
    /\ (lowerValue s' <=? upperValue s') = true.
Proof.
  intros HI Ha.
  destruct (run_Invariant (firstn n evs) s HI (admissibleRun_firstn n evs s Ha))
    as (s' & Hrun & HI').
  exists s'. split; [exact Hrun |]. split; [exact HI' |].
  destruct HI' as (lu & ll & U & L & H). tauto.
Qed.

(** A session inside the frame: the upper line is grabbed, dragged to
    500 and released, and the series arrives afterwards. *)
Lemma bounds_ordered_within_gestures_session :
  exists s,
    run initial
      (Scenario.grabAndDrag
       ++ [Scenario.mouse mouseup 400 145; HourlyLoaded Scenario.hourly])
    = Some s
    /\ (lowerValue s <=? upperValue s) = true.
Proof.
  destruct (bounds_ordered_within_gestures
              (Scenario.grabAndDrag
               ++ [Scenario.mouse mouseup 400 145;
                   HourlyLoaded Scenario.hourly])
              initial 4 Invariant_initial)
    as (s & Hrun & _ & Hle).
  - simpl. repeat split; try reflexivity.
    intros l [= <-]. reflexivity.
  - exists s. split; assumption.
Defined.

(** C1: the failing session.  The upper line is grabbed and dragged to
    500 before the hourly series has arrived; the series arrives and
    seeds the bounds at 2850 and 3150; the button is released.  The
    release hands the dragged object's value, 500, to [setUpperValue]:
    the bounds end at lower 2850 and upper 500, and [lower <= upper] is
    false. *)
Theorem bounds_crossed_after_release :
  (exists s,
      run initial (Scenario.grabAndDrag ++ [HourlyLoaded Scenario.hourly])
      = Some s
      /\ lowerValue s = 2850 /\ upperValue s = 3150
      /\ dragging (chart s) = Some 0%nat
      /\ lines (chart s) = Some [2%nat; 3%nat])
  /\ exists s,
      run initial Scenario.releaseAfterLoad = Some s
      /\ lowerValue s = 2850
      /\ upperValue s = 500
      /\ (lowerValue s <=? upperValue s) = false.
Proof.
  split; eexists; (split; [reflexivity |]); repeat split.
Qed.

End ControllerFacts.

(** ** Numbers: finiteness, and [Math.min] and [Math.max] commute *)

Module NumberFacts.
Import JS FloatOrder.

(** A number is finite exactly when its decoded form is a zero or a
    finite binary number. *)
Lemma isFinite_spec a :
  isFinite a = true <->
  match Prim2SF a with
  | S754_zero _ | S754_finite _ _ _ => True
  | _ => False
  end.
Proof.
  unfold isFinite, PrimFloat.is_finite, PrimFloat.is_infinity.
  rewrite eqb_cmp. unfold cmp. rewrite abs_spec.
  destruct (PrimFloat.is_nan a) eqn:Hn.
  - apply is_nan_spec in Hn. rewrite Hn. simpl. split; [discriminate | tauto].
  - apply is_nan_false in Hn.
    change (Prim2SF infinity) with (S754_infinity false).
    destruct (Prim2SF a) as [s | s | | s m e]; simpl; try tauto;
      split; try discriminate; try tauto; auto.
Qed.

Lemma finite_lt_infinity a : isFinite a = true -> (a <? infinity) = true.
Proof.
  intros H. apply isFinite_spec in H. rewrite ltb_cmp. unfold cmp.
  change (Prim2SF infinity) with (S754_infinity false).
  destruct (Prim2SF a); simpl; tauto.
Qed.

Lemma neg_infinity_lt_finite a : isFinite a = true -> (neg_infinity <? a) = true.
Proof.
  intros H. apply isFinite_spec in H. rewrite ltb_cmp. unfold cmp.
  change (Prim2SF neg_infinity) with (S754_infinity true).
  destruct (Prim2SF a); simpl; tauto.
Qed.

(** Two numbers that compare equal are the same number, or are both
    zeros. *)
Lemma SFcompare_Eq_inv x y :
  SFcompare x y = Some Eq ->
  x = y \/ (exists s s', x = S754_zero s /\ y = S754_zero s').
Proof.
  destruct x as [sx | sx | | sx mx ex], y as [sy | sy | | sy my ey];
    simpl; try discriminate;
    try (destruct sx; discriminate); try (destruct sy; discriminate).
  - intros _. right. eauto.
  - destruct sx, sy; try discriminate; intros _; left; reflexivity.
  - change (Pos.compare_cont Eq mx my) with (Pos.compare mx my).
    destruct sx, sy; try discriminate;
      destruct (Z.compare_spec ex ey); try discriminate;
      destruct (Pos.compare_spec mx my); try discriminate;
      subst; left; reflexivity.
Qed.

(** The sign of a zero, as [get_sign] reads it. *)
Lemma get_sign_zero a s : Prim2SF a = S754_zero s -> PrimFloat.get_sign a = s.
Proof.
  intros H. unfold PrimFloat.get_sign, PrimFloat.is_zero.
  rewrite eqb_cmp. unfold cmp. rewrite H.
  change (Prim2SF zero) with (S754_zero false). simpl.
  rewrite ltb_cmp. unfold cmp. rewrite div_spec, H.
  change (Prim2SF zero) with (S754_zero false).
  change (Prim2SF one) with (S754_finite false 4503599627370496 (-52)).
  destruct s; reflexivity.
Qed.

Lemma Math_min_comm a b : Math_min a b = Math_min b a.
Proof.
  unfold Math_min. rewrite (orb_comm (PrimFloat.is_nan b)).
  destruct (PrimFloat.is_nan a) eqn:Ha; [reflexivity |].
  destruct (PrimFloat.is_nan b) eqn:Hb; [reflexivity |]. simpl.
  destruct (a <? b) eqn:Eab.
  - rewrite (leb_ltb_false a b (ltb_leb a b Eab)). reflexivity.
  - destruct (b <? a) eqn:Eba; [reflexivity |].
    assert (E : cmp a b = Some Eq).
    { rewrite ltb_cmp in Eab, Eba. rewrite (cmp_antisym a b) in Eba.
      destruct (cmp_Some a b Ha Hb) as [c Hc]. rewrite Hc in *.
      destruct c; simpl in *; congruence. }
    destruct (SFcompare_Eq_inv _ _ E) as [H | (s & s' & Hs & Hs')].
    + apply Prim2SF_inj in H. subst.
      destruct (PrimFloat.get_sign b); reflexivity.
    + rewrite (get_sign_zero a s Hs), (get_sign_zero b s' Hs').
      destruct s, s'; try reflexivity;
        apply Prim2SF_inj; congruence.
Qed.

Lemma Math_max_comm a b : Math_max a b = Math_max b a.
Proof.
  unfold Math_max. rewrite (orb_comm (PrimFloat.is_nan b)).
  destruct (PrimFloat.is_nan a) eqn:Ha; [reflexivity |].
  destruct (PrimFloat.is_nan b) eqn:Hb; [reflexivity |]. simpl.
  destruct (a <? b) eqn:Eab.
  - rewrite (leb_ltb_false a b (ltb_leb a b Eab)). reflexivity.
  - destruct (b <? a) eqn:Eba; [reflexivity |].
    assert (E : cmp a b = Some Eq).
    { rewrite ltb_cmp in Eab, Eba. rewrite (cmp_antisym a b) in Eba.
      destruct (cmp_Some a b Ha Hb) as [c Hc]. rewrite Hc in *.
      destruct c; simpl in *; congruence. }
    destruct (SFcompare_Eq_inv _ _ E) as [H | (s & s' & Hs & Hs')].
    + apply Prim2SF_inj in H. subst.
      destruct (PrimFloat.get_sign b); reflexivity.
    + rewrite (get_sign_zero a s Hs), (get_sign_zero b s' Hs').
      destruct s, s'; try reflexivity;
        apply Prim2SF_inj; congruence.
Qed.

End NumberFacts.

(** ** The value axis *)

Module AxisFacts.
Import JS Dashboard FloatOrder NumberFacts Axis.

Lemma scan_extentOf seen lo hi v :
  extentOf seen lo hi ->
  extentOf (seen ++ [v]) (scan (lo, hi) v).1 (scan (lo, hi) v).2.
Proof.
  intros H. unfold scan.
  destruct (isFinite v) eqn:Hv; simpl.
  2:{ destruct H as [(Hall & -> & ->) | (Hlo & Hhi & Ilo & Ihi & Hb)].
      - left. split; [| auto]. apply Forall_app. split; [exact Hall |].
        constructor; [exact Hv | constructor].
      - right.
        split; [exact Hlo |]. split; [exact Hhi |].
        split; [apply in_or_app; left; exact Ilo |].
        split; [apply in_or_app; left; exact Ihi |].
        intros w Hw Fw. apply in_app_or in Hw as [Hw | [<- | []]].
        + apply Hb; assumption.
        + congruence. }
  pose proof (is_finite_not_nan v Hv) as Nv.
  destruct H as [(Hall & -> & ->) | (Hlo & Hhi & Ilo & Ihi & Hb)].
  - rewrite (finite_lt_infinity v Hv), (neg_infinity_lt_finite v Hv).
    right.
    split; [exact Hv |]. split; [exact Hv |].
    split; [apply in_or_app; right; left; reflexivity |].
    split; [apply in_or_app; right; left; reflexivity |].
    intros w Hw Fw. apply in_app_or in Hw as [Hw | [<- | []]].
    + rewrite (proj1 (List.Forall_forall _ _) Hall w Hw) in Fw. discriminate.
    + split; apply leb_refl, Nv.
  - pose proof (is_finite_not_nan lo Hlo) as Nlo.
    pose proof (is_finite_not_nan hi Hhi) as Nhi.
    right.
    split; [destruct (v <? lo); assumption |].
    split; [destruct (hi <? v); assumption |].
    split; [destruct (v <? lo);
            apply in_or_app; [right; left; reflexivity | left; assumption] |].
    split; [destruct (hi <? v);
            apply in_or_app; [right; left; reflexivity | left; assumption] |].
    intros w Hw Fw. apply in_app_or in Hw as [Hw | [<- | []]].
    + destruct (Hb w Hw Fw) as [H1 H2]. split.
      * destruct (v <? lo) eqn:E; [| exact H1].
        exact (leb_trans v lo w (ltb_leb _ _ E) H1).
      * destruct (hi <? v) eqn:E; [| exact H2].
        exact (leb_trans w hi v H2 (ltb_leb _ _ E)).
    + split.
      * destruct (v <? lo) eqn:E; [apply leb_refl, Nv |].
        apply ltb_false_leb; assumption.
      * destruct (hi <? v) eqn:E; [apply leb_refl, Nv |].
        apply ltb_false_leb; assumption.
Qed.

Lemma fold_scan_extentOf rest : forall seen lo hi,
  extentOf seen lo hi ->
  extentOf (seen ++ rest) (fold_left scan rest (lo, hi)).1
    (fold_left scan rest (lo, hi)).2.
Proof.
  induction rest as [| v rest IH]; intros seen lo hi H.
  - simpl. rewrite app_nil_r. exact H.
  - change (fold_left scan (v :: rest) (lo, hi))
      with (fold_left scan rest (scan (lo, hi) v)).
    pose proof (scan_extentOf seen lo hi v H) as H1.
    destruct (scan (lo, hi) v) as [lo1 hi1]. simpl in H1.
    rewrite (cons_middle v seen rest), app_assoc. apply IH, H1.
Qed.

Lemma finiteExtent_extentOf values :
  extentOf values (finiteExtent values).1 (finiteExtent values).2.
Proof.
  apply (fold_scan_extentOf values [] infinity neg_infinity).
  left. repeat split. constructor.
Qed.

(** With a finite value among them, the values have a range: the least
    and the greatest finite value, padded. *)
Lemma computeYRange_defined values padFrac :
  Exists (fun v => isFinite v = true) values ->
  exists lo hi,
    In lo values /\ In hi values
    /\ isFinite lo = true /\ isFinite hi = true
    /\ (forall v, In v values -> isFinite v = true ->
                  (lo <=? v) = true /\ (v <=? hi) = true)
    /\ computeYRange values padFrac
       = {| YRange.min := Some (lo - padding lo hi padFrac);
            YRange.max := Some (hi + padding lo hi padFrac) |}.
Proof.
  intros Hex. pose proof (finiteExtent_extentOf values) as H.
  unfold computeYRange.
  destruct (finiteExtent values) as [lo hi]. simpl in H.
  destruct H as [(Hall & _ & _) | (Hlo & Hhi & Ilo & Ihi & Hb)].
  - apply List.Exists_exists in Hex. destruct Hex as (v & Hv & Fv).
    rewrite (proj1 (List.Forall_forall _ _) Hall v Hv) in Fv. discriminate.
  - exists lo, hi. repeat (split; [assumption |]).
    destruct values as [| v0 values]; [destruct Ilo |].
    rewrite Hlo, Hhi. reflexivity.
Qed.

(** Without one, they have none. *)
Lemma computeYRange_undefined values padFrac :
  Forall (fun v => isFinite v = false) values ->
  computeYRange values padFrac = {| YRange.min := None; YRange.max := None |}.
Proof.
  intros Hall. pose proof (finiteExtent_extentOf values) as H.
  unfold computeYRange. destruct values as [| v0 values]; [reflexivity |].
  destruct (finiteExtent (v0 :: values)) as [lo hi]. simpl in H.
  destruct H as [(_ & -> & ->) | (Hlo & _ & Ilo & _)].
  - reflexivity.
  - rewrite (proj1 (List.Forall_forall _ _) Hall lo Ilo) in Hlo. discriminate.
Qed.

Lemma finite_or_not (values : list float) :
  Exists (fun v => isFinite v = true) values
  \/ Forall (fun v => isFinite v = false) values.
Proof.
  induction values as [| v values [IH | IH]].
  - right. constructor.
  - left. apply Exists_cons_tl, IH.
  - destruct (isFinite v) eqn:E.
    + left. apply Exists_cons_hd, E.
    + right. constructor; assumption.
Qed.

(** X9: [computeYRange] has no range exactly when no value is finite, and
    then neither end is defined.  With a finite value, the range is the
    least and the greatest finite value of the array, which enclose every
    finite value, with the padding taken off and added. *)
Theorem computeYRange_extent (values : list float) (padFrac : float) :
  let r := computeYRange values padFrac in
  (YRange.min r = None <-> Forall (fun v => isFinite v = false) values)
  /\ (YRange.max r = None <-> YRange.min r = None)
  /\ (Exists (fun v => isFinite v = true) values ->
      exists lo hi,
        In lo values /\ In hi values
        /\ isFinite lo = true /\ isFinite hi = true
        /\ (forall v, In v values -> isFinite v = true ->
                      (lo <=? v) = true /\ (v <=? hi) = true)
        /\ r = {| YRange.min := Some (lo - padding lo hi padFrac);
                  YRange.max := Some (hi + padding lo hi padFrac) |}).
Proof.
  intros r. subst r.
  split; [| split]; [| | apply computeYRange_defined].
  - destruct (finite_or_not values) as [Hex | Hall].
    + destruct (computeYRange_defined values padFrac Hex)
        as (lo & hi & Ilo & _ & Hlo & _ & _ & ->). simpl.
      split; [discriminate |]. intros Hall.
      rewrite (proj1 (List.Forall_forall _ _) Hall lo Ilo) in Hlo. discriminate.
    + rewrite (computeYRange_undefined values padFrac Hall). simpl. tauto.
  - destruct (finite_or_not values) as [Hex | Hall].
    + destruct (computeYRange_defined values padFrac Hex)
        as (lo & hi & _ & _ & _ & _ & _ & ->). simpl.
      split; discriminate.
    + rewrite (computeYRange_undefined values padFrac Hall). simpl. tauto.
Qed.

Lemma computeYRange_extent_witness :
  exists lo hi,
    computeYRange [3; PrimFloat.nan; 1; 2] 0.06
    = {| YRange.min := Some (lo - padding lo hi 0.06);
         YRange.max := Some (hi + padding lo hi 0.06) |}
    /\ (lo <=? 1) = true /\ (3 <=? hi) = true.
Proof.
  destruct (proj2 (proj2 (computeYRange_extent [3; PrimFloat.nan; 1; 2] 0.06)))
    as (lo & hi & _ & _ & _ & _ & Hb & Hr).
  - apply Exists_cons_hd. reflexivity.
  - exists lo, hi. split; [exact Hr |]. split.
    + apply (Hb 1); [right; right; left; reflexivity | reflexivity].
    + apply (Hb 3); [left; reflexivity | reflexivity].
Defined.

(** The array [combined] holds the finite bounds, and finite values
    only. *)
Lemma combined_bounds dataRange lower upper :
  isFinite lower = true -> isFinite upper = true ->
  In lower (combined dataRange lower upper)
  /\ In upper (combined dataRange lower upper).
Proof.
  intros Hl Hu. unfold combined.
  assert (El : finiteOrNull lower ≫= finiteOrNull = Some lower).
  { unfold finiteOrNull. rewrite Hl. simpl. rewrite Hl. reflexivity. }
  assert (Eu : finiteOrNull upper ≫= finiteOrNull = Some upper).
  { unfold finiteOrNull. rewrite Hu. simpl. rewrite Hu. reflexivity. }
  simpl. rewrite El, Eu.
  destruct (YRange.min dataRange ≫= finiteOrNull),
    (YRange.max dataRange ≫= finiteOrNull); simpl; auto 6.
Qed.

(** X10: with finite bounds the value axis always has a range, and it
    is the padded extent of finite numbers that enclose both bounds,
    whatever the prices are. *)
Theorem yRange_covers_bounds (prices : list float) (lower upper : float) :
  isFinite lower = true -> isFinite upper = true ->
  exists lo hi,
    isFinite lo = true /\ isFinite hi = true
    /\ (lo <=? lower) = true /\ (lower <=? hi) = true
    /\ (lo <=? upper) = true /\ (upper <=? hi) = true
    /\ yRange prices lower upper
       = {| YRange.min := Some (lo - padding lo hi 0.04);
            YRange.max := Some (hi + padding lo hi 0.04) |}.
Proof.
  intros Hl Hu. unfold yRange.
  destruct (combined_bounds (computeYRange prices 0.06) lower upper Hl Hu)
    as [Il Iu].
  destruct (computeYRange_defined
              (combined (computeYRange prices 0.06) lower upper) 0.04)
    as (lo & hi & _ & _ & Hlo & Hhi & Hb & Hr).
  { apply List.Exists_exists. exists lower. split; assumption. }
  exists lo, hi. split; [exact Hlo |]. split; [exact Hhi |].
  destruct (Hb lower Il Hl) as [H1 H2].
  destruct (Hb upper Iu Hu) as [H3 H4].
  repeat (split; [assumption |]). exact Hr.
Qed.

Lemma yRange_covers_bounds_witness :
  exists lo hi,
    yRange [] (-1000) 1000
    = {| YRange.min := Some (lo - padding lo hi 0.04);
         YRange.max := Some (hi + padding lo hi 0.04) |}
    /\ (lo <=? -1000) = true /\ (1000 <=? hi) = true.
Proof.
  destruct (yRange_covers_bounds [] (-1000) 1000 eq_refl eq_refl)
    as (lo & hi & _ & _ & H1 & _ & _ & H2 & Hr).
  exists lo, hi. auto.
Defined.

End AxisFacts.

(** ** Ticks and ranges *)

Module RangeFacts.
Import JS Dashboard FloatOrder NumberFacts AggregateFacts.

(** X12: the liquidity in range is the same whichever of the two bounds
    is given as the lower one. *)
Theorem totalLiquidityInRange_bounds_swap
    (ticks : list Tick) (a b : float) :
  totalLiquidityInRange ticks a b = totalLiquidityInRange ticks b a.
Proof.
  unfold totalLiquidityInRange, normalizeRange.
  rewrite (Math_min_comm b a), (Math_max_comm b a). reflexivity.
Qed.

(** X13: a tick overlaps a range or not whichever way round its two
    prices are stored, and whatever its value is. *)
Theorem tickOverlapsRange_prices_swap (pl pu v v' lo hi : float) :
  tickOverlapsRange
    {| priceLowerUSD := pl; priceUpperUSD := pu; usdValue := v |} lo hi
  = tickOverlapsRange
      {| priceLowerUSD := pu; priceUpperUSD := pl; usdValue := v' |} lo hi.
Proof.
  unfold tickOverlapsRange. simpl.
  rewrite (orb_comm (negb (isFinite pu))), (Math_min_comm pu pl),
    (Math_max_comm pu pl).
  reflexivity.
Qed.

(** X14: a tick that overlaps a range overlaps every range that contains
    it. *)
Theorem tickOverlapsRange_widen (tick : Tick) (lo hi lo' hi' : float) :
  (lo' <=? lo) = true -> (hi <=? hi') = true ->
  tickOverlapsRange tick lo hi = true ->
  tickOverlapsRange tick lo' hi' = true.
Proof.
  intros Hlo Hhi. unfold tickOverlapsRange.
  destruct (negb (isFinite (priceLowerUSD tick))
            || negb (isFinite (priceUpperUSD tick))); [discriminate |].
  rewrite !andb_true_iff. intros [H1 H2]. split.
  - exact (leb_trans _ _ _ Hlo H1).
  - exact (leb_trans _ _ _ H2 Hhi).
Qed.

Lemma tickOverlapsRange_widen_witness :
  tickOverlapsRange
    {| priceLowerUSD := 90; priceUpperUSD := 110; usdValue := 5 |} 50 300
  = true.
Proof.
  apply (tickOverlapsRange_widen _ 100 200 50 300); reflexivity.
Defined.

Lemma included_app lo hi l1 l2 :
  included lo hi (l1 ++ l2) = included lo hi l1 ++ included lo hi l2.
Proof. unfold included. apply List.filter_app. Qed.

(** X15: a tick that does not overlap the normalized range can be taken
    out of the ticks without changing the liquidity in range, as long as
    a tick is left. *)
Theorem excluded_tick_contributes_nothing
    (before after : list Tick) (tick : Tick) (lower upper : float) :
  tickOverlapsRange tick (Math_min lower upper) (Math_max lower upper) = false ->
  before ++ after <> [] ->
  totalLiquidityInRange (before ++ tick :: after) lower upper
  = totalLiquidityInRange (before ++ after) lower upper.
Proof.
  intros Hex Hne. rewrite !totalLiquidityInRange_included.
  destruct (isFinite lower && isFinite upper); [| reflexivity].
  rewrite !included_app. simpl. unfold included at 2. simpl.
  rewrite Hex. fold (included (Math_min lower upper) (Math_max lower upper) after).
  destruct before as [| t0 before]; simpl.
  - destruct after; [exfalso; apply Hne; reflexivity | reflexivity].
  - reflexivity.
Qed.

Lemma excluded_tick_contributes_nothing_witness :
  let tick a b v := {| priceLowerUSD := a; priceUpperUSD := b; usdValue := v |} in
  totalLiquidityInRange [tick 90 110 5; tick 300 400 7; tick 150 160 2] 100 200
  = totalLiquidityInRange [tick 90 110 5; tick 150 160 2] 100 200.
Proof.
  intros tick.
  apply (excluded_tick_contributes_nothing [tick 90 110 5] [tick 150 160 2]
           (tick 300 400 7) 100 200).
  - reflexivity.
  - discriminate.
Defined.

End RangeFacts.

(** ** From the loaded data to the estimate *)

Module PipelineFacts.
Import JS Dashboard FloatOrder AggregateFacts EstimateFacts.

(** X16: the calculator shows dashes for every deposit when there are
    no ticks, when no tick overlaps the finite, ordered bounds, or when
    no daily record gives a fee. *)
Theorem estimate_needs_liquidity_and_fees
    (deposit : float) (ticks : list Tick) (lower upper : float)
    (dailyAll : list DayPoint) :
  ticks = []
  \/ (isFinite lower = true /\ isFinite upper = true
      /\ (lower <=? upper) = true
      /\ forall t, In t ticks -> tickOverlapsRange t lower upper = false)
  \/ feesOf dailyAll = [] ->
  handleCalculate deposit
    (totalLiquidityInRange ticks lower upper)
    (last7d (feesSummary dailyAll))
  = {| calcRequested := true; estFeesWeekly := Dash;
       estFeesDaily := Dash; estApr := Dash |}.
Proof.
  intros H. apply handleCalculate_not_estimable. unfold estimable.
  destruct (isFinite deposit && (0 <? deposit)); [simpl | reflexivity].
  destruct H as [-> | [(Hl & Hu & Hle & Hno) | Hf]].
  - rewrite totalLiquidityInRange_included.
    destruct (isFinite lower && isFinite upper); reflexivity.
  - rewrite totalLiquidityInRange_included, Hl, Hu. simpl.
    destruct ticks as [| t ticks]; [reflexivity |].
    rewrite included_none; [reflexivity |].
    intros t' Ht'. rewrite tickOverlapsRange_normalized by exact Hle.
    apply Hno, Ht'.
  - unfold feesSummary. rewrite Hf. simpl. apply andb_false_r.
Qed.

Lemma estimate_needs_liquidity_and_fees_witness :
  handleCalculate 1000
    (totalLiquidityInRange
       [ {| priceLowerUSD := 90; priceUpperUSD := 110; usdValue := 5 |} ]
       200 300)
    (last7d (feesSummary
               [ {| day_ts := 1700000000; day_price := 3000;
                    day_feesUSD := Some 10 |} ]))
  = {| calcRequested := true; estFeesWeekly := Dash;
       estFeesDaily := Dash; estApr := Dash |}.
Proof.
  apply estimate_needs_liquidity_and_fees. right. left.
  repeat split. intros t [<- | []]. reflexivity.
Defined.

End PipelineFacts.

(** ** The loaders *)

Module LoaderFacts.
Import JS Dashboard FloatOrder Loader.

Lemma mapHourly_finite sorted :
  Forall (fun p => isFinite (HourPoint.ts p) = true
                   /\ isFinite (HourPoint.price p) = true)
    (mapHourly sorted).
Proof.
  unfold mapHourly. induction sorted as [| d sorted IH]; simpl.
  - constructor.
  - destruct (isFinite (extractTs d)) eqn:Ets,
      (isFinite (extractPrice d)) eqn:Epr; simpl; try exact IH.
    constructor; [simpl; auto | exact IH].
Qed.

Lemma last_Forall {A : Type} (P : A -> Prop) (l : list A) (x : A) :
  Forall P l -> last l = Some x -> P x.
Proof.
  intros H Hl. apply (proj1 (List.Forall_forall P l) H).
  apply last_Some in Hl. destruct Hl as [l' ->].
  apply in_or_app. right. left. reflexivity.
Qed.

(** X6: after a non-empty hourly array is loaded, the current price, if
    there is one, is finite; the reset button puts the bounds at 95% and
    105% of it, and so does the first load that gives a price. *)
Theorem hourlyFetched_reset (sorted : list RawPoint) (s : App) (p : float) :
  sorted <> [] ->
  currentPrice (hourlyFetched sorted s) = Some p ->
  isFinite p = true
  /\ lowerValue (handleReset (hourlyFetched sorted s)) = p * 0.95
  /\ upperValue (handleReset (hourlyFetched sorted s)) = p * 1.05
  /\ (didInitBoundsRef s = false ->
      lowerValue (hourlyFetched sorted s) = p * 0.95
      /\ upperValue (hourlyFetched sorted s) = p * 1.05).
Proof.
  intros Hne Hp.
  assert (Hs : hourlyFetched sorted s = hourlyLoaded (mapHourly sorted) s).
  { destruct sorted; [congruence | reflexivity]. }
  rewrite Hs in *.
  assert (Hall : hourlyAll (hourlyLoaded (mapHourly sorted) s) = mapHourly sorted).
  { unfold hourlyLoaded. destruct (last (mapHourly sorted));
      [destruct (didInitBoundsRef s) |]; reflexivity. }
  unfold currentPrice in Hp. rewrite Hall in Hp.
  destruct (last (mapHourly sorted)) as [l |] eqn:El; [| discriminate].
  simpl in Hp. injection Hp as <-.
  pose proof (last_Forall _ _ _ (mapHourly_finite sorted) El) as [_ Hfin].
  split; [exact Hfin |].
  assert (Hcp : currentPrice (hourlyLoaded (mapHourly sorted) s)
                = Some (HourPoint.price l)).
  { unfold currentPrice. rewrite Hall, El. reflexivity. }
  split; [| split].
  - unfold handleReset. rewrite Hcp, Hfin. reflexivity.
  - unfold handleReset. rewrite Hcp, Hfin. reflexivity.
  - intros Hd. unfold hourlyLoaded. rewrite El, Hd. simpl. auto.
Qed.

Lemma hourlyFetched_reset_witness :
  let d :=
    {| timestamp := Undefined; periodStartUnix := Val 1700000000;
       dayStartUnix := Undefined; token0Price := Undefined;
       price := Undefined; token1Price := Val 0.0005; feesUSD := Undefined |} in
  currentPrice (hourlyFetched [d] initial) = Some 2000
  /\ lowerValue (handleReset (hourlyFetched [d] initial)) = 1900.
Proof.
  intros d. split; [reflexivity |].
  destruct (hourlyFetched_reset [d] initial 2000) as (_ & H & _).
  - discriminate.
  - reflexivity.
  - exact H.
Defined.

Lemma mapDaily_wellFormed sorted :
  Forall (fun d => isFinite (day_ts d) = true
                   /\ isFinite (day_price d) = true
                   /\ isFinite (toNumber (day_feesUSD d)) = true)
    (mapDaily sorted).
Proof.
  unfold mapDaily. induction sorted as [| d sorted IH]; simpl.
  - constructor.
  - destruct (isFinite (extractTs d)) eqn:Ets,
      (isFinite (extractPrice d)) eqn:Epr; simpl; try exact IH.
    constructor; [simpl | exact IH].
    split; [exact Ets |]. split; [exact Epr |].
    unfold finiteOrNull. destruct (isFinite (Number (feesUSD d))) eqn:E;
      simpl; [exact E | reflexivity].
Qed.

Lemma feesOf_kept dailyAll :
  Forall (fun d => isFinite (day_ts d) = true
                   /\ isFinite (day_price d) = true
                   /\ isFinite (toNumber (day_feesUSD d)) = true)
    dailyAll ->
  feesOf dailyAll
  = map (fun d => {| Dashboard.ts := day_ts d;
                     Dashboard.feesUSD := toNumber (day_feesUSD d) |})
      dailyAll.
Proof.
  unfold feesOf. induction 1 as [| d l (Hts & _ & Hf) _ IH]; simpl.
  - reflexivity.
  - rewrite Hts, Hf. simpl. f_equal. exact IH.
Qed.

Lemma last_map {A B : Type} (f : A -> B) (l : list A) :
  last (map f l) = option_map f (last l).
Proof.
  destruct l as [| x l _] using rev_ind; [reflexivity |].
  rewrite map_app. simpl. rewrite !last_snoc. reflexivity.
Qed.

(** X7: every record the daily loader keeps counts in the fee summary:
    its fee is a finite number or [null], and [null] counts as 0.  The
    fee of the last day is that of the last kept record, and it is
    [null] only when no record was kept. *)
Theorem mapDaily_fees_counted (sorted : list RawPoint) :
  let dailyAll := mapDaily sorted in
  let s := feesSummary dailyAll in
  feesOf dailyAll
  = map (fun d => {| Dashboard.ts := day_ts d;
                     Dashboard.feesUSD := toNumber (day_feesUSD d) |})
      dailyAll
  /\ (forall d, In d dailyAll ->
        day_feesUSD d = None \/
        exists f, day_feesUSD d = Some f /\ isFinite f = true)
  /\ (forall d, last dailyAll = Some d ->
        last1d s = Some (toNumber (day_feesUSD d)))
  /\ (last1d s = None <-> dailyAll = []).
Proof.
  intros dailyAll s. subst s.
  pose proof (mapDaily_wellFormed sorted) as Hwf. fold dailyAll in Hwf.
  pose proof (feesOf_kept dailyAll Hwf) as Hk.
  split; [exact Hk |]. split; [| split].
  - intros d Hd.
    destruct (proj1 (List.Forall_forall _ _) Hwf d Hd) as (_ & _ & Hf).
    destruct (day_feesUSD d) as [f |]; [right; eauto | left; reflexivity].
  - intros d Hl. unfold feesSummary. rewrite Hk.
    rewrite last_map, Hl. reflexivity.
  - unfold feesSummary. rewrite Hk, last_map.
    destruct (last dailyAll) as [d |] eqn:Hl; simpl.
    + split; [discriminate |]. intros E. rewrite E in Hl. discriminate.
    + split; [| reflexivity]. intros _. apply last_None, Hl.
Qed.

Lemma mapDaily_fees_counted_witness :
  let day t f :=
    {| timestamp := Val t; periodStartUnix := Undefined;
       dayStartUnix := Undefined; token0Price := Val 3000;
       price := Undefined; token1Price := Undefined; feesUSD := f |} in
  let s := feesSummary (mapDaily [day 1700000000 (Val 10);
                                  day 1700086400 Undefined]) in
  last1d s = Some 0 /\ last7d s = Some 10.
Proof.
  intros day s. split; [| reflexivity].
  destruct (mapDaily_fees_counted [day 1700000000 (Val 10);
                                   day 1700086400 Undefined])
    as (_ & _ & H & _).
  exact (H _ eq_refl).
Defined.

(** X8: a tick the loader keeps has a finite value and finite prices, so
    that it overlaps a range exactly when the greater of its prices is
    at least the low end and the lesser at most the high end. *)
Theorem mapTicks_overlap (arr : list RawTick) (t : Tick) (rangeLo rangeHi : float) :
  In t (mapTicks arr) ->
  isFinite (usdValue t) = true
  /\ tickOverlapsRange t rangeLo rangeHi
     = (rangeLo <=? Math_max (priceLowerUSD t) (priceUpperUSD t))
       && (Math_min (priceLowerUSD t) (priceUpperUSD t) <=? rangeHi).
Proof.
  unfold mapTicks. intros H. apply List.filter_In in H as [_ H].
  apply andb_prop in H as [H Hv]. apply andb_prop in H as [Hl Hu].
  split; [exact Hv |]. unfold tickOverlapsRange. rewrite Hl, Hu. reflexivity.
Qed.

Lemma mapTicks_overlap_witness :
  let t := {| priceLowerUSD := 110; priceUpperUSD := 90; usdValue := 5 |} in
  tickOverlapsRange t 100 200 = (100 <=? 110) && (90 <=? 200).
Proof.
  intros t.
  refine (proj2 (mapTicks_overlap
                   [ {| raw_priceLowerUSD := Val 110;
                        raw_priceUpperUSD := Val 90;
                        raw_usdValue := Val 5 |};
                     {| raw_priceLowerUSD := Val 10;
                        raw_priceUpperUSD := Undefined;
                        raw_usdValue := Val 1 |} ] t 100 200 _)).
  left. reflexivity.
Defined.

End LoaderFacts.

(** ** The time frames *)

Module TimeframeFacts.
Import JS Timeframes FeeSummaryFacts.
Import String.StringSyntax.
Local Open Scope string_scope.
Local Open Scope list_scope.

Lemma tf_In view : In (tf view) TIMEFRAMES.
Proof.
  unfold tf, TIMEFRAMES. cbn -[String.eqb].
  repeat (destruct (String.eqb _ view); [cbn; auto 10 |]).
  cbn. auto 10.
Qed.

Lemma tf_count_pos view : (0 < count (tf view))%nat.
Proof.
  pose proof (tf_In view) as H. unfold TIMEFRAMES in H. simpl in H.
  repeat (destruct H as [<- | H]; [simpl; lia |]). destruct H.
Qed.

(** X11: the time frame of a view is one of [TIMEFRAMES], the seven-day
    frame for a view that names none; the chart shows the end of the
    frame's series: as many points as the frame counts, or all of them
    when there are fewer, ending with the last point of the series. *)
Theorem activeSeries_trailing {Point : Type} (view : String.string)
    (hourlyAll dailyAll : list Point) :
  let t := tf view in
  let source :=
    match source t with hourly => hourlyAll | daily => dailyAll end in
  let shown := activeSeries view hourlyAll dailyAll in
  In t TIMEFRAMES
  /\ (String.eqb view "24h" = false -> String.eqb view "30d" = false ->
      String.eqb view "6m" = false -> String.eqb view "1y" = false ->
      t = {| id := "7d"; source := hourly; count := 168 |})
  /\ (exists front, source = front ++ shown)
  /\ length shown = Nat.min (count t) (length source)
  /\ last shown = last source.
Proof.
  intros t source shown.
  split; [apply tf_In |]. split.
  { intros H1 H2 H3 H4. subst t. unfold tf, TIMEFRAMES. cbn -[String.eqb].
    rewrite (String.eqb_sym "24h" view), H1, (String.eqb_sym "30d" view), H2,
      (String.eqb_sym "6m" view), H3, (String.eqb_sym "1y" view), H4.
    destruct (String.eqb "7d" view); reflexivity. }
  pose proof (tf_count_pos view) as Hpos. fold t in Hpos.
  assert (Hshown : shown = match source with
                           | [] => []
                           | _ => slice_last (count t) source
                           end) by reflexivity.
  destruct source as [| p source'] eqn:Es.
  { rewrite Hshown. split; [exists []; reflexivity |].
    split; [simpl; lia | reflexivity]. }
  rewrite <- Es in *. assert (Hlen : (0 < length source)%nat).
  { rewrite Es. simpl. lia. }
  assert (Hs : shown = slice_last (count t) source).
  { rewrite Hshown, Es. reflexivity. }
  rewrite Hs.
  destruct (Nat.le_gt_cases (length source) (count t)) as [Hle | Hgt].
  - rewrite (slice_last_all _ _ Hle).
    split; [exists []; reflexivity |]. split; [lia | reflexivity].
  - destruct (slice_last_trailing (count t) source) as (front & Hf & Hl);
      [lia |].
    split; [exists front; exact Hf |]. split; [lia |].
    rewrite Hf at 2. rewrite last_app.
    destruct (last (slice_last (count t) source)) eqn:E; [reflexivity |].
    apply last_None in E. rewrite E in Hl. simpl in Hl. lia.
Qed.

Lemma activeSeries_trailing_witness :
  length (activeSeries "2w" (seq 0 200) (seq 0 40)) = 168%nat
  /\ last (activeSeries "2w" (seq 0 200) (seq 0 40)) = Some 199%nat.
Proof.
  destruct (activeSeries_trailing "2w" (seq 0 200) (seq 0 40))
    as (_ & _ & _ & Hlen & Hlast).
  split; [rewrite Hlen | rewrite Hlast]; reflexivity.
Defined.

End TimeframeFacts.

(** ** Sessions of the dashboard *)

Module SessionFacts.
Import JS Dashboard FloatOrder ControllerFacts Gestures.

Lemma setBounds_didInit up lo s :
  didInitBoundsRef (setBounds up lo s) = didInitBoundsRef s.
Proof. reflexivity. Qed.

Lemma step_didInit s ev s' :
  didInitBoundsRef s = true -> step s ev = Some s' ->
  didInitBoundsRef s' = true.
Proof.
  intros Hd. destruct ev as [yScale chartArea event | n | n | mapped |]; simpl.
  - destruct (afterEvent yScale chartArea event (chart s))
      as [[c calls] |]; simpl; [| discriminate].
    intros [= <-].
    assert (G : forall calls a, didInitBoundsRef a = true ->
                didInitBoundsRef
                  (fold_left (fun a call => applyCall call a) calls a) = true).
    { clear. induction calls as [| [[|] v] calls IH]; intros a Ha; simpl;
        [exact Ha | apply IH; exact Ha | apply IH; exact Ha]. }
    apply G. exact Hd.
  - intros [= <-]. unfold applyUpper. destruct (negb (isFinite n)); exact Hd.
  - intros [= <-]. unfold applyLower. destruct (negb (isFinite n)); exact Hd.
  - intros [= <-]. unfold hourlyLoaded. rewrite Hd. simpl.
    destruct (last mapped); reflexivity.
  - intros [= <-]. unfold handleReset.
    destruct (currentPrice s) as [p |]; [| exact Hd].
    destruct (negb (isFinite p)); exact Hd.
Qed.

Lemma run_didInit evs : forall s s',
  didInitBoundsRef s = true -> run s evs = Some s' ->
  didInitBoundsRef s' = true.
Proof.
  induction evs as [| ev evs IH]; intros s s' Hd; simpl.
  - intros [= <-]. exact Hd.
  - destruct (step s ev) as [s1 |] eqn:E; simpl; [| discriminate].
    apply IH. eapply step_didInit; eauto.
Qed.

(** X4: once a non-empty hourly series has arrived, whatever events
    follow, a series that arrives later replaces the series and leaves
    the bounds and the chart alone. *)
Theorem bounds_seeded_once
    (first later : list HourPoint.t) (evs : list Event) (s s' : App) :
  first <> [] ->
  run (hourlyLoaded first s) evs = Some s' ->
  upperValue (hourlyLoaded later s') = upperValue s'
  /\ lowerValue (hourlyLoaded later s') = lowerValue s'
  /\ chart (hourlyLoaded later s') = chart s'
  /\ hourlyAll (hourlyLoaded later s') = later.
Proof.
  intros Hne Hrun.
  assert (H0 : didInitBoundsRef (hourlyLoaded first s) = true).
  { unfold hourlyLoaded.
    destruct (last first) as [l |] eqn:El.
    - destruct (didInitBoundsRef s) eqn:Hd; reflexivity.
    - apply last_None in El. contradiction. }
  pose proof (run_didInit evs _ _ H0 Hrun) as Hd.
  unfold hourlyLoaded. rewrite Hd. simpl.
  destruct (last later); repeat split.
Qed.

Lemma bounds_seeded_once_witness :
  let later := [ {| HourPoint.ts := 1700007200; HourPoint.price := 4000 |} ] in
  let s' := applyUpper 5000 (hourlyLoaded Scenario.hourly initial) in
  upperValue (hourlyLoaded later s') = 5000
  /\ lowerValue (hourlyLoaded later s') = 2850.
Proof.
  intros later s'.
  destruct (bounds_seeded_once Scenario.hourly later [ApplyUpper 5000]
              initial s') as (H1 & H2 & _).
  - discriminate.
  - reflexivity.
  - rewrite H1, H2. split; reflexivity.
Defined.

(** X2: a press inside the chart area, a move and a release, from a
    consistent state (the chart's two lines hold the bounds, and the
    lower bound is at most the upper one) with nothing dragged.  No
    handler throws and the drag is over.  When the press is within six
    pixels of the lower line, the lower bound becomes the lesser of the
    pointer's value, clamped to the axis, and the upper bound;
    otherwise, when it is within six pixels of the upper line, the upper
    bound becomes the greater of that value and the lower bound;
    otherwise both bounds stay.  The other bound stays.  When the scale
    gives a number for the pointer, the bounds are ordered afterwards;
    when the clamped value is not a number, the bound of the grabbed
    line ends as [NaN]. *)
Theorem drag_gesture
    (s : App)
    (yScale1 yScale2 yScale3 : Scale.t)
    (chartArea1 chartArea2 chartArea3 : ChartArea.t)
    (down move up : MouseEvent.t) :
  Invariant s -> dragging (chart s) = None ->
  MouseEvent.type down = mousedown -> inside chartArea1 down = true ->
  MouseEvent.type move = mousemove ->
  MouseEvent.type up = mouseup \/ MouseEvent.type up = mouseout ->
  let near v :=
    Math_abs (MouseEvent.y down - Scale.getPixelForValue yScale1 v) <? 6 in
  let c := axisClamped yScale2 (MouseEvent.y move) in
  exists s',
    run s [ ChartEvent (Some yScale1) (Some chartArea1) down;
            ChartEvent (Some yScale2) (Some chartArea2) move;
            ChartEvent (Some yScale3) (Some chartArea3) up ] = Some s'
    /\ dragging (chart s') = None
    /\ (PrimFloat.is_nan
          (Scale.getValueForPixel yScale2 (MouseEvent.y move)) = false ->
        (lowerValue s' <=? upperValue s') = true)
    /\ (PrimFloat.is_nan c = true ->
        (near (lowerValue s) = true -> PrimFloat.is_nan (lowerValue s') = true)
        /\ (near (lowerValue s) = false -> near (upperValue s) = true ->
            PrimFloat.is_nan (upperValue s') = true))
    /\ if near (lowerValue s) then
         lowerValue s' = Math_min c (upperValue s)
         /\ upperValue s' = upperValue s
       else if near (upperValue s) then
         upperValue s' = Math_max c (lowerValue s)
         /\ lowerValue s' = lowerValue s
       else
         upperValue s' = upperValue s /\ lowerValue s' = lowerValue s.
Proof.
  intros HI Hidle Hdown Hin Hmove Hup near c.
  assert (E1 : EventType_eqb (MouseEvent.type up) mousedown = false)
    by (destruct Hup as [-> | ->]; reflexivity).
  assert (E2 : EventType_eqb (MouseEvent.type up) mousemove = false)
    by (destruct Hup as [-> | ->]; reflexivity).
  assert (E3 : EventType_eqb (MouseEvent.type up) mouseup
               || EventType_eqb (MouseEvent.type up) mouseout = true)
    by (destruct Hup as [-> | ->]; reflexivity).
  destruct HI as (lu & ll & U & L & Hls & Hne & HU & HL & HlU & HlL
                  & HeU & HeL & Hle & HleL & Hdr).
  rewrite Hidle in Hdr. destruct Hdr as [HvU HvL].
  destruct (leb_not_nan _ _ Hle) as [Nlo Nup].
  assert (Nc : PrimFloat.is_nan
                 (Scale.getValueForPixel yScale2 (MouseEvent.y move)) = false
               -> PrimFloat.is_nan c = false)
    by (intros Hnan; exact (axisClamped_not_nan _ _ Hnan)).
  destruct (findLabel_pair _ _ _ _ _ HU HL HlU HlL) as [Hfu Hfl].
  unfold run, step, afterEvent. rewrite Hls.
  unfold grabBlock, moveBlock, releaseBlock.
  rewrite Hdown, Hin. simpl. rewrite HL, HU, HvL, HvU. fold (near (lowerValue s)).
  fold (near (upperValue s)).
  destruct (near (lowerValue s)) eqn:NL; simpl.
  - (* the lower line is grabbed *)
    rewrite Hmove. simpl. unfold dragMove. rewrite HL, Hfu, Hfl. simpl.
    rewrite HlL, HU. simpl. fold c. rewrite E1, E2, E3. simpl.
    rewrite list_lookup_insert_eq by (eapply lookup_lt_Some, HL). simpl.
    rewrite HeL. simpl.
    eexists. split; [reflexivity |]. unfold setBounds. simpl.
    rewrite HvU.
    split; [destruct (_ && _); reflexivity |].
    split; [intros Hnan; apply Math_min_le_r; auto |].
    split; [| split; reflexivity].
    intros Hc. split; [| discriminate].
    intros _. unfold Math_min. rewrite Hc. reflexivity.
  - destruct (near (upperValue s)) eqn:NU; simpl.
    + (* the upper line is grabbed *)
      rewrite Hmove. simpl. unfold dragMove. rewrite HU, Hfu, Hfl. simpl.
      rewrite HlU, HL. simpl. fold c. rewrite E1, E2, E3. simpl.
      rewrite list_lookup_insert_eq by (eapply lookup_lt_Some, HU). simpl.
      rewrite HeU. simpl.
      eexists. split; [reflexivity |]. unfold setBounds. simpl.
      rewrite HvL.
      split; [destruct (_ && _); reflexivity |].
      split; [intros Hnan; apply Math_max_ge_r; auto |].
      split; [| split; reflexivity].
      intros Hc. split; [discriminate |].
      intros _ _. unfold Math_max. rewrite Hc. reflexivity.
    + (* no line is grabbed *)
      rewrite !Hidle. simpl. rewrite ?Hmove, ?E1, ?E2, ?E3. simpl.
      rewrite ?Hmove, ?E1, ?E2, ?E3. simpl.
      eexists. split; [reflexivity |]. simpl.
      split; [reflexivity |]. split; [intros _; exact Hle |].
      split; [| split; reflexivity].
      intros _. split; discriminate.
Qed.

Lemma drag_gesture_witness :
  exists s',
    run initial [ Scenario.mouse mousedown 400 20;
                  Scenario.mouse mousemove 400 145;
                  Scenario.mouse mouseup 400 145 ] = Some s'
    /\ dragging (chart s') = None
    /\ upperValue s' = 500 /\ lowerValue s' = -1000.
Proof.
  destruct (drag_gesture initial
              Scenario.yScale Scenario.yScale Scenario.yScale
              Scenario.chartArea Scenario.chartArea Scenario.chartArea
              {| MouseEvent.type := mousedown;
                 MouseEvent.x := 400; MouseEvent.y := 20 |}
              {| MouseEvent.type := mousemove;
                 MouseEvent.x := 400; MouseEvent.y := 145 |}
              {| MouseEvent.type := mouseup;
                 MouseEvent.x := 400; MouseEvent.y := 145 |}
              Invariant_initial eq_refl eq_refl eq_refl eq_refl
              (or_introl eq_refl))
    as (s' & Hrun & Hdrag & _ & _ & Hb).
  exists s'. split; [exact Hrun |]. split; [exact Hdrag |]. exact Hb.
Defined.

Lemma step_hovering (s : App) (ev : Event) :
  dragging (chart s) = None -> hovering ev = true ->
  exists s',
    step s ev = Some s'
    /\ upperValue s' = upperValue s /\ lowerValue s' = lowerValue s
    /\ objs (chart s') = objs (chart s) /\ lines (chart s') = lines (chart s)
    /\ dragging (chart s') = None.
Proof.
  intros Hidle Hh. destruct ev as [ys ca event | | | |]; try discriminate.
  simpl in Hh. apply negb_true_iff in Hh. unfold step, afterEvent.
  destruct (lines (chart s)) as [ls |] eqn:Hls;
    [destruct ys as [ys |]; [destruct ca as [ca |] |] |];
    try (simpl; eexists; split; [reflexivity |]; simpl;
         repeat split; auto; fail).
  unfold grabBlock, moveBlock, releaseBlock. rewrite Hidle, Hh. simpl.
  destruct (_ || _); simpl; eexists; (split; [reflexivity |]); simpl;
    repeat split; auto.
Qed.

(** X3: while nothing is dragged, chart events that press no button
    (moves, releases, the pointer leaving) never throw and change
    neither the bounds nor the lines. *)
Theorem hover_keeps_bounds (evs : list Event) (s : App) :
  dragging (chart s) = None -> forallb hovering evs = true ->
  exists s',
    run s evs = Some s'
    /\ upperValue s' = upperValue s /\ lowerValue s' = lowerValue s
    /\ objs (chart s') = objs (chart s) /\ lines (chart s') = lines (chart s)
    /\ dragging (chart s') = None.
Proof.
  revert s. induction evs as [| ev evs IH]; intros s Hidle Hall.
  - exists s. repeat split; auto.
  - simpl in Hall. apply andb_prop in Hall as [Hev Hall].
    destruct (step_hovering s ev Hidle Hev)
      as (s1 & Hs & Hu & Hl & Ho & Hli & Hd).
    destruct (IH s1 Hd Hall) as (s' & Hr & Hu' & Hl' & Ho' & Hli' & Hd').
    exists s'. simpl. rewrite Hs. simpl.
    split; [exact Hr |]. repeat split; congruence.
Qed.

Lemma hover_keeps_bounds_witness :
  exists s',
    run initial [ Scenario.mouse mousemove 400 20;
                  Scenario.mouse mousemove 400 145;
                  Scenario.mouse mouseup 400 145;
                  Scenario.mouse mouseout 900 145 ] = Some s'
    /\ upperValue s' = 1000 /\ lowerValue s' = -1000.
Proof.
  destruct (hover_keeps_bounds
              [ Scenario.mouse mousemove 400 20;
                Scenario.mouse mousemove 400 145;
                Scenario.mouse mouseup 400 145;
                Scenario.mouse mouseout 900 145 ] initial eq_refl)
    as (s' & Hr & Hu & Hl & _).
  - reflexivity.
  - exists s'. split; [exact Hr |]. split; assumption.
Defined.

Lemma cursorBlocks_paired ys ca event c :
  cursorPaired c ->
  truthy (cursorBlocks ys ca event c).1 = truthy (cursorBlocks ys ca event c).2.
Proof.
  intros Hp. unfold cursorBlocks.
  destruct (_ && _); destruct (EventType_eqb _ mouseout); simpl; auto.
Qed.

Lemma cursorPaired_setBounds u l s :
  cursorPaired (chart s) -> cursorPaired (chart (setBounds u l s)).
Proof.
  intros Hp. unfold setBounds. simpl. destruct (_ && _); auto.
Qed.

Lemma cursorPaired_calls calls s :
  cursorPaired (chart s) ->
  cursorPaired (chart (fold_left (fun a call => applyCall call a) calls s)).
Proof.
  revert s. induction calls as [| [[] v] calls IH]; intros s Hp; simpl; auto;
    apply IH; apply cursorPaired_setBounds; exact Hp.
Qed.

Lemma step_cursorPaired s ev s' :
  cursorPaired (chart s) -> step s ev = Some s' -> cursorPaired (chart s').
Proof.
  intros Hp Hs. destruct ev as [ys ca event | n | n | mapped |]; simpl in Hs.
  - destruct (afterEvent ys ca event (chart s)) as [[c calls] |] eqn:Ha;
      [| discriminate].
    simpl in Hs. injection Hs as <-. apply cursorPaired_calls. simpl.
    unfold afterEvent in Ha.
    destruct (lines (chart s)) as [ls |];
      [destruct ys as [ys |]; [destruct ca as [ca |] |] |];
      try (injection Ha as <- <-; exact Hp).
    destruct (grabBlock ys ca event ls (chart s)) as [drag |];
      [| discriminate]. simpl in Ha.
    destruct (moveBlock ys event ls drag (objs (chart s))) as [os |];
      [| discriminate]. simpl in Ha.
    destruct (releaseBlock event drag os) as [[drag' calls'] |];
      [| discriminate]. simpl in Ha.
    injection Ha as <- <-. unfold cursorPaired. simpl.
    apply cursorBlocks_paired, Hp.
  - injection Hs as <-. unfold applyUpper.
    destruct (negb _); auto using cursorPaired_setBounds.
  - injection Hs as <-. unfold applyLower.
    destruct (negb _); auto using cursorPaired_setBounds.
  - injection Hs as <-. unfold hourlyLoaded.
    destruct (last mapped); [destruct (negb _) |]; auto.
    apply cursorPaired_setBounds. exact Hp.
  - injection Hs as <-. unfold handleReset.
    destruct (currentPrice s); [destruct (negb _) |];
      auto using cursorPaired_setBounds.
Qed.

Lemma run_cursorPaired evs : forall s s',
  cursorPaired (chart s) -> run s evs = Some s' -> cursorPaired (chart s').
Proof.
  induction evs as [| ev evs IH]; intros s s' Hp; simpl.
  - intros [= <-]. exact Hp.
  - destruct (step s ev) as [s1 |] eqn:E; simpl; [| discriminate].
    apply IH. eapply step_cursorPaired; eauto.
Qed.

(** X5: the pixel and the value of the cursor are set and cleared
    together: if one is [null] exactly when the other is, this is still
    so after any sequence of events. *)
Theorem cursor_pixel_and_value (evs : list Event) (s s' : App) :
  cursorPaired (chart s) -> run s evs = Some s' ->
  (cursorY (chart s') = None <-> cursorVal (chart s') = None).
Proof.
  intros Hp Hrun. pose proof (run_cursorPaired evs s s' Hp Hrun) as H.
  unfold cursorPaired in H.
  destruct (cursorY (chart s')), (cursorVal (chart s')); simpl in H;
    try discriminate; split; auto; discriminate.
Qed.

Lemma cursor_pixel_and_value_witness :
  match run initial [ Scenario.mouse mousemove 400 20;
                      Scenario.mouse mouseup 400 20 ] with
  | Some s' =>
      cursorY (chart s') = Some 20
      /\ (cursorY (chart s') = None <-> cursorVal (chart s') = None)
  | None => False
  end.
Proof.
  destruct (run initial [ Scenario.mouse mousemove 400 20;
                          Scenario.mouse mouseup 400 20 ])
    as [s' |] eqn:E.
  - pose proof (cursor_pixel_and_value _ initial s' eq_refl E) as H.
    split; [| exact H]. injection E as <-. reflexivity.
  - discriminate.
Defined.

End SessionFacts.

(** ** Sessions of the dragger of [App.jsx] *)

Module LegacyFacts.
Import JS Dashboard LegacyApp LegacySession.

Lemma dispatch_not_pressed s ev :
  isDraggingAnnotation s = false -> pressed ev = false ->
  isDraggingAnnotation (dispatch s ev) = false
  /\ lowerPrice (dispatch s ev) = lowerPrice s
  /\ upperPrice (dispatch s ev) = upperPrice s.
Proof.
  intros Hd Hp. destruct ev as [a | | ys [event |]]; simpl; auto.
  simpl in Hp. unfold LegacyApp.afterEvent. rewrite Hp. simpl.
  destruct (_ || _); simpl; auto.
  destruct (activeAnnotationElement s); auto.
  rewrite Hd, andb_false_r. auto.
Qed.

(** X17: in [App.jsx], while no drag is under way and until a
    [mousedown] arrives, no event changes the lower or the upper price,
    whichever line the pointer enters or leaves. *)
Theorem prices_fixed_until_mousedown (evs : list Callback) (s : State) :
  isDraggingAnnotation s = false ->
  forallb (fun ev => negb (pressed ev)) evs = true ->
  isDraggingAnnotation (dispatchAll s evs) = false
  /\ lowerPrice (dispatchAll s evs) = lowerPrice s
  /\ upperPrice (dispatchAll s evs) = upperPrice s.
Proof.
  revert s. induction evs as [| ev evs IH]; intros s Hd Hall; simpl; auto.
  simpl in Hall. apply andb_prop in Hall as [Hp Hall].
  apply negb_true_iff in Hp.
  destruct (dispatch_not_pressed s ev Hd Hp) as (Hd1 & Hl1 & Hu1).
  destruct (IH _ Hd1 Hall) as (Hd' & Hl' & Hu').
  unfold dispatchAll in *. repeat split; congruence.
Qed.

Lemma prices_fixed_until_mousedown_witness :
  let s :=
    {| activeAnnotationElement := None; isDraggingAnnotation := false;
       lowerPrice := Some 90; upperPrice := Some 100 |} in
  let move :=
    PluginEvent Scenario.yScale
      (Some {| MouseEvent.type := mousemove;
               MouseEvent.x := 400; MouseEvent.y := 145 |}) in
  lowerPrice (dispatchAll s [Enter lowerLine; move; Leave; move])
  = Some 90.
Proof.
  intros s move.
  apply (prices_fixed_until_mousedown [Enter lowerLine; move; Leave; move] s);
    reflexivity.
Defined.

End LegacyFacts.
